(** * podman machine: command synthesis, connection registry and the applehv
      machine life cycle

    A shallow embedding of
    - [pkg/machine/qemu/command.go]: the device descriptors of the qemu
      backend and their serialisation to an argument vector,
    - the two connection registries (package [machine], on containers.conf,
      and package [connection], on the connections file),
    - [pkg/machine/applehv/machine.go]: [Start], [Stop], [Set] and [Remove]
      of a [MacMachine], and the loading and creating of machines,
    - the options of an architecture, the volumes of [machine_unix.go], the
      named pipes of [machine_windows.go] and [handlePrevError].

    Go strings are [string], [[]string] is [list string], [int] and [uint64]
    are [Z] and [N] (no arithmetic is done on them here, only comparison and
    printing), Go maps are [gmap]s under an [option] that keeps the nil map
    apart from the empty one, and an [error] value that may be nil is an
    [option error]. *)

From Stdlib Require Import ZArith NArith Ascii DecimalString.
From stdpp Require Import base tactics option strings list gmap.

Local Open Scope Z_scope.

(** ** Go primitives *)

Module Go.

(** [s == ""] *)
Definition is_empty (s : string) : bool :=
  match s with
  | EmptyString => true
  | String _ _ => false
  end.

(** [strconv.Itoa] and the [%d] verb: the decimal digits, with a leading
    minus sign for a negative number. *)
Definition Itoa (n : Z) : string := NilZero.string_of_int (Z.to_int n).

(** A nil-able Go map: [None] is the nil map. Reading a nil map finds
    nothing, [delete] on it does nothing, ranging over it runs no
    iteration; only assignment needs the map to exist. *)
Definition map_get {V} (m : option (gmap string V)) (k : string) : option V :=
  match m with
  | Some g => g !! k
  | None => None
  end.

Definition map_delete {V} (m : option (gmap string V)) (k : string)
  : option (gmap string V) :=
  match m with
  | Some g => Some (delete k g)
  | None => None
  end.

(** The keys a map holds; none for the nil map. *)
Definition map_keys {V} (m : option (gmap string V)) : gset string :=
  match m with
  | Some g => dom g
  | None => ∅
  end.

(** [for k := range m { ...; break }]: Go leaves the iteration order of a
    map unspecified, so which key the first iteration sees is the run
    time's choice.  The choice is a parameter of the model: any function
    that returns a key of the map, and nothing only for a map without
    keys. *)
Class RangeOrder := {
  range_first : forall {V}, gmap string V -> option string;
  range_first_Some : forall V (g : gmap string V) k,
    range_first g = Some k -> is_Some (g !! k);
  range_first_None : forall V (g : gmap string V),
    range_first g = None -> g = ∅
}.

Definition map_range_first `{RangeOrder} {V} (m : option (gmap string V))
  : option string :=
  match m with
  | Some g => range_first g
  | None => None
  end.

End Go.

(** ** Package machine: files and errors *)

(** [machine.VMFile].  The type is declared outside the files at hand;
    [writeConfig] reads its [Path] field directly and everything else goes
    through [GetPath], which is therefore left to the environment. *)
Record VMFile := mkVMFile { Path : string; Symlink : option string }.

Class VMFileOps := GetPath : VMFile -> string.

(** Go errors, as far as the code at hand tells them apart: the sentinel
    errors of package machine, errors made on the spot from a message
    ([errors.New], [fmt.Errorf]) and errors the operating system reports. *)
Inductive errno := ENOENT | EACCES | ENOSPC.

Inductive error :=
| ErrVMAlreadyRunning
| ErrWrongState
| ErrNoSuchVM
| ErrNotImplemented
| ErrNew (msg : string)
| Errorf (format : string) (args : list string)
| PathError (op path : string) (cause : errno).

Global Instance errno_eq_dec : EqDecision errno.
Proof. solve_decision. Defined.

Global Instance error_eq_dec : EqDecision error.
Proof. solve_decision. Defined.

(** ** Package qemu: command.go *)

Module Qemu.

Module FirmwareConfigDevice.
Record t := mk {
  Name : string;
  IgnitionFile : VMFile;
  ConfigString : string
}.

Definition ToCmdline `{VMFileOps} (f : t) : list string :=
  let args := ["-fw_cfg"] in
  let vars := "" in
  let vars :=
    if negb (Go.is_empty (Name f)) then vars +:+ ("name=" +:+ Name f)
    else vars in
  let ignPath := GetPath (IgnitionFile f) in
  let vars :=
    if negb (Go.is_empty ignPath) then
      let vars :=
        if (0 <? String.length vars)%nat then vars +:+ "," else vars in
      vars +:+ ("file=" +:+ ignPath)
    else vars in
  let vars :=
    if negb (Go.is_empty (ConfigString f)) then
      let vars :=
        if (0 <? String.length vars)%nat then vars +:+ "," else vars in
      vars +:+ ("string=" +:+ ConfigString f)
    else vars in
  args ++ [vars].
End FirmwareConfigDevice.

(** [Monitor] is declared in another file of package qemu; the command
    line reads its [Network] and [Address] fields. *)
Module Monitor.
Record t := mk {
  Address : VMFile;
  Network : string;
  Timeout : Z
}.
End Monitor.

Module QmpMonitor.
Record t := mk {
  Monitor : Monitor.t;
  Server : bool;
  Wait : bool
}.

Definition GetServerStatus (q : t) : string :=
  if Server q then "on" else "off".

Definition GetWaitStatus (q : t) : string :=
  if Wait q then "on" else "off".

Definition ToCmdline `{VMFileOps} (q : t) : list string :=
  let args := ["-qmp"] in
  let vars := "" in
  let vars :=
    if negb (Go.is_empty (Monitor.Network (Monitor q)))
       && negb (Go.is_empty (GetPath (Monitor.Address (Monitor q))))
    then vars +:+ (Monitor.Network (Monitor q) +:+ ":" +:+
                   GetPath (Monitor.Address (Monitor q)))
    else vars in
  let vars := if negb (Go.is_empty vars) then vars +:+ "," else vars in
  let vars := vars +:+ ("server=" +:+ GetServerStatus q) in
  let vars := if negb (Go.is_empty vars) then vars +:+ "," else vars in
  let vars := vars +:+ ("wait=" +:+ GetWaitStatus q) in
  args ++ [vars].
End QmpMonitor.

Module Socket.
Record t := mk {
  ID : string;
  FileDescriptor : Z
}.

Definition ToCmdline (s : t) : string :=
  let vars := "socket" in
  let vars := vars +:+ ",id=vlan" in
  let vars :=
    if 0 <=? FileDescriptor s
    then vars +:+ (",fd=" +:+ Go.Itoa (FileDescriptor s))
    else vars in
  vars.
End Socket.

Module VirtioNet.
Record t := mk {
  NetDevice : string;
  MacAddress : string
}.

Definition ToCmdline (v : t) : string :=
  let vars := "virtio-net-pci" in
  let vars :=
    if negb (Go.is_empty (NetDevice v))
    then vars +:+ (",netdev=" +:+ NetDevice v) else vars in
  let vars :=
    if negb (Go.is_empty (MacAddress v))
    then vars +:+ (",mac=" +:+ MacAddress v) else vars in
  vars.
End VirtioNet.

Module Network.
Record t := mk {
  Socket : Socket.t;
  VirtioNet : VirtioNet.t
}.

Definition ToCmdline (n : t) : list string :=
  ["-netdev"; Socket.ToCmdline (Socket n);
   "-device"; VirtioNet.ToCmdline (VirtioNet n)].
End Network.

Module CharDev.
Record t := mk {
  SocketPath : VMFile;
  Server : bool;
  Wait : bool;
  ID : string
}.

Definition GetServerStatus (c : t) : string :=
  if Server c then "on" else "off".

Definition GetWaitStatus (c : t) : string :=
  if Wait c then "on" else "off".

(** [fmt.Sprintf("id=a%s_ready", x)] *)
Definition Sprintf_id_ready (x : string) : string :=
  "id=a" +:+ x +:+ "_ready".

Definition ToCmdline `{VMFileOps} (c : t) : list string :=
  let vars := "" in
  let vars :=
    if negb (Go.is_empty (GetPath (SocketPath c)))
    then vars +:+ ("socket,path=" +:+ GetPath (SocketPath c))
    else vars in
  let vars := if negb (Go.is_empty vars) then vars +:+ "," else vars in
  let vars := vars +:+ ("server=" +:+ "on" +:+ ",wait=" +:+ GetWaitStatus c) in
  let vars := if negb (Go.is_empty vars) then vars +:+ "," else vars in
  ["-chardev"; vars +:+ Sprintf_id_ready "podman-machine-default"].
End CharDev.

Module VirtSerialPort.
Record t := mk {
  Name : string;
  CharDev : string
}.

Definition ToCmdline (v : t) : list string :=
  let vars := "virtserialport" in
  let vars :=
    if negb (Go.is_empty (CharDev v))
    then vars +:+ (",chardev=" +:+ CharDev v) else vars in
  let vars :=
    if negb (Go.is_empty (Name v))
    then vars +:+ (",name=" +:+ Name v) else vars in
  ["-device"; vars].
End VirtSerialPort.

Module SerialPort.
Record t := mk {
  PidFile : VMFile;
  CharDev : CharDev.t;
  VirtSerialPort : VirtSerialPort.t
}.

Definition ToCmdline `{VMFileOps} (s : t) : list string :=
  let args := ["-device"; "virtio-serial"] in
  let args := args ++ CharDev.ToCmdline (CharDev s) in
  let args := args ++ VirtSerialPort.ToCmdline (VirtSerialPort s) in
  let args := args ++ ["-pidfile"; GetPath (PidFile s)] in
  args.
End SerialPort.

Module Virtfs.
Record t := mk {
  Path : VMFile;
  MountTag : string;
  SecurityModel : string;
  ReadOnly : bool
}.

Definition ToCmdline `{VMFileOps} (v : t) : list string :=
  let vars := "local" in
  let vars :=
    if negb (Go.is_empty (GetPath (Path v)))
    then vars +:+ (",path=" +:+ GetPath (Path v)) else vars in
  let vars :=
    if negb (Go.is_empty (MountTag v))
    then vars +:+ (",mount_tag=" +:+ MountTag v) else vars in
  let vars :=
    if negb (Go.is_empty (SecurityModel v))
    then vars +:+ (",security_model=" +:+ SecurityModel v) else vars in
  let vars := if ReadOnly v then vars +:+ ",readonly" else vars in
  ["-virtfs"; vars].
End Virtfs.

Module QemuCmd.
Record t := mk {
  Memory : Z;
  CPUs : Z;
  CPU : string;
  Bios : string;
  BootableImage : string;
  Display : bool;
  Accelerator : string;
  Machine : string;
  Mounts : list Virtfs.t;
  FirmwareConfigs : list FirmwareConfigDevice.t;
  QmpMonitor : QmpMonitor.t;
  Network : Network.t;
  SerialPort : SerialPort.t
}.

(** [args = append(args, ...)] all the way down, the two [range] loops
    as left folds over the slices. *)
Definition ToCmdline `{VMFileOps} (q : t) : list string :=
  let args := [] in
  let args := args ++ ["-m"; Go.Itoa (Memory q)] in
  let args := args ++ ["-smp"; Go.Itoa (CPUs q)] in
  let args :=
    fold_left (fun args fwCfgDev =>
                 args ++ FirmwareConfigDevice.ToCmdline fwCfgDev)
              (FirmwareConfigs q) args in
  let args := args ++ QmpMonitor.ToCmdline (QmpMonitor q) in
  let args := args ++ Network.ToCmdline (Network q) in
  let args := args ++ SerialPort.ToCmdline (SerialPort q) in
  let args :=
    fold_left (fun args mount => args ++ Virtfs.ToCmdline mount)
              (Mounts q) args in
  let args :=
    if Display q then args ++ ["-display"; "true"]
    else args ++ ["-display"; "none"] in
  let args := args ++ ["-accel"; Accelerator q] in
  let args := args ++ ["-cpu"; CPU q] in
  let args := args ++ ["-drive"; "if=virtio,file=" +:+ BootableImage q] in
  let args :=
    if negb (Go.is_empty (Bios q)) then args ++ ["-bios"; Bios q]
    else args in
  let args := args ++ ["-M"; Machine q] in
  args.
End QemuCmd.

End Qemu.

(** ** The persisted registries *)

(** [config.Destination] of containers/common. *)
Record Destination := mkDestination {
  URI : string;
  Identity : string;
  IsMachine : bool
}.

Global Instance Destination_eq_dec : EqDecision Destination.
Proof. solve_decision. Defined.

(** A configuration file on disk, by the value of type [C] a read decodes
    it to.  Whether reading or writing it fails is the environment's
    matter: [read_err] and [write_err] say what a read and a write report.
    A write is taken to be read back as written; where an encoder drops an
    empty mapping, so that it reads back as nil, nothing below tells the
    difference: removal, lookup and iteration treat the two alike. *)
Record Store (C : Type) := mkStore {
  stored : C;
  read_err : option error;
  write_err : option error
}.
Arguments mkStore {C}.
Arguments stored {C}.
Arguments read_err {C}.
Arguments write_err {C}.

Definition store_read {C} (st : Store C) : C + error :=
  match read_err st with
  | Some err => inr err
  | None => inl (stored st)
  end.

Definition store_write {C} (cfg : C) (st : Store C) : Store C * option error :=
  match write_err st with
  | Some err => (st, Some err)
  | None => (mkStore cfg (read_err st) (write_err st), None)
  end.

(** ** Package machine: states, options, and the registry kept in
       containers.conf *)

Module Machine.

(** Modelled from the spec: [machine.Status] and the option and
    configuration structs of package machine are declared outside the
    files at hand.  The spec names the states [Stopped], [Starting] and
    [Running], and the parts of a VM record: the resources (CPU count,
    memory size, disk size), the image (boot image path, stream tag,
    ignition payload path) and the ssh settings (identity key path, remote
    port, remote user name, root-mode flag); the field names are those the
    code reads. *)
Inductive Status := Running | Stopped | Starting.

Global Instance Status_eq_dec : EqDecision Status.
Proof. solve_decision. Defined.

Record HostUser := mkHostUser { UID : Z }.

Record ImageConfig := mkImageConfig {
  IgnitionFile : VMFile;
  ImageStream : string;
  ImagePath : VMFile
}.

Record ResourceConfig := mkResourceConfig {
  CPUs : N;
  DiskSize : N;
  Memory : N
}.

Record SSHConfig := mkSSHConfig {
  IdentityPath : string;
  Port : Z;
  RemoteUsername : string;
  Rootful : bool
}.

Record Mount := mkMount {
  Source : string;
  Target : string
}.

(** Pointer fields: [None] is the nil pointer, "leave as it is". *)
Record SetOptions := mkSetOptions {
  set_CPUs : option N;
  set_DiskSize : option N;
  set_Memory : option N
}.

Record RemoveOptions := mkRemoveOptions {
  Force : bool;
  SaveKeys : bool;
  SaveImage : bool;
  SaveIgnition : bool
}.

Variant StartOptions := mkStartOptions.
Variant StopOptions := mkStopOptions.

Record EngineConfig := mkEngine {
  ActiveService : string;
  ServiceDestinations : option (gmap string Destination)
}.

Record Config := mkConfig { Engine : EngineConfig }.

(** [config.ReadCustomConfig()] and [cfg.Write()] of containers/common. *)
Definition ReadCustomConfig (st : Store Config) : Config + error :=
  store_read st.

Definition Write (cfg : Config) (st : Store Config)
  : Store Config * option error :=
  store_write cfg st.

Definition AddConnection (uri name identity : string) (isDefault : bool)
    (st : Store Config) : Store Config * option error :=
  if (String.length identity <? 1)%nat then
    (st, Some (ErrNew "identity must be defined"))
  else
    match ReadCustomConfig st with
    | inr err => (st, Some err)
    | inl cfg =>
        match Go.map_get (ServiceDestinations (Engine cfg)) name with
        | Some _ => (st, Some (ErrNew "cannot overwrite connection"))
        | None =>
            let cfg :=
              if isDefault
              then mkConfig (mkEngine name (ServiceDestinations (Engine cfg)))
              else cfg in
            let dst := mkDestination uri "" true in
            let dst := mkDestination (URI dst) identity (IsMachine dst) in
            let cfg :=
              match ServiceDestinations (Engine cfg) with
              | None =>
                  let cfg :=
                    mkConfig (mkEngine (ActiveService (Engine cfg))
                                       (Some {[ name := dst ]})) in
                  mkConfig (mkEngine name (ServiceDestinations (Engine cfg)))
              | Some g =>
                  mkConfig (mkEngine (ActiveService (Engine cfg))
                                     (Some (<[ name := dst ]> g)))
              end in
            Write cfg st
        end
    end.

Definition AnyConnectionDefault (name : list string) (st : Store Config)
  : bool * option error :=
  match ReadCustomConfig st with
  | inr err => (false, Some err)
  | inl cfg =>
      (existsb (fun n => String.eqb n (ActiveService (Engine cfg))) name,
       None)
  end.

Definition ChangeDefault (name : string) (st : Store Config)
  : Store Config * option error :=
  match ReadCustomConfig st with
  | inr err => (st, Some err)
  | inl cfg =>
      Write (mkConfig (mkEngine name (ServiceDestinations (Engine cfg)))) st
  end.

(** The body of the loop of [RemoveConnections], once per name; an
    error leaves the loop (and the function) at once. *)
Definition remove_one `{Go.RangeOrder} (name : string) (cfg : Config)
  : Config + error :=
  match Go.map_get (ServiceDestinations (Engine cfg)) name with
  | Some _ =>
      let cfg :=
        mkConfig (mkEngine (ActiveService (Engine cfg))
                   (Go.map_delete (ServiceDestinations (Engine cfg)) name)) in
      if String.eqb (ActiveService (Engine cfg)) name then
        let cfg := mkConfig (mkEngine "" (ServiceDestinations (Engine cfg))) in
        match Go.map_range_first (ServiceDestinations (Engine cfg)) with
        | Some service =>
            inl (mkConfig (mkEngine service (ServiceDestinations (Engine cfg))))
        | None => inl cfg
        end
      else inl cfg
  | None => inr (Errorf "unable to find connection named %q" [name])
  end.

Fixpoint remove_loop `{Go.RangeOrder} (names : list string) (cfg : Config)
  : Config + error :=
  match names with
  | [] => inl cfg
  | name :: names =>
      match remove_one name cfg with
      | inl cfg => remove_loop names cfg
      | inr err => inr err
      end
  end.

Definition RemoveConnections `{Go.RangeOrder} (names : list string)
    (st : Store Config) : Store Config * option error :=
  match ReadCustomConfig st with
  | inr err => (st, Some err)
  | inl cfg =>
      match remove_loop names cfg with
      | inr err => (st, Some err)
      | inl cfg => Write cfg st
      end
  end.

End Machine.

(** ** Package connection: the registry kept in the connections file *)

Module Connection.

Record ConnectionConfig := mkConnection {
  Default : string;
  Connections : option (gmap string Destination)
}.

Record ConnectionsFile := mkFile { Connection : ConnectionConfig }.

Record connection := mkCon { name : string; uri : string }.

(** Modelled from the spec: [config.EditConnectionConfig] belongs to
    containers/common and is not among the files at hand.  The spec has
    it "acquire the file for read, apply the mutation, persist, release",
    edits being all-or-nothing: the callback runs on what was read, and
    its outcome is written only when it reports no error.  [A] is what
    the callback leaves in the variables it captured, starting from
    [a0]. *)
Definition EditConnectionConfig {A}
    (callback : ConnectionsFile -> ConnectionsFile * A * option error)
    (a0 : A) (st : Store ConnectionsFile)
  : Store ConnectionsFile * A * option error :=
  match store_read st with
  | inr err => (st, a0, Some err)
  | inl cfg =>
      match callback cfg with
      | (_, a, Some err) => (st, a, Some err)
      | (cfg, a, None) =>
          let '(st, err) := store_write cfg st in (st, a, err)
      end
  end.

(** The loop of [addConnection]'s callback, [i] counting the entries
    already handled. *)
Fixpoint add_loop (identity : string) (isDefault : bool) (i : nat)
    (conns : list connection) (cfg : ConnectionsFile)
  : ConnectionsFile * unit * option error :=
  match conns with
  | [] => (cfg, (), None)
  | con :: conns =>
      match Go.map_get (Connections (Connection cfg)) (name con) with
      | Some _ =>
          (cfg, (), Some (Errorf "cannot overwrite connection %q" [name con]))
      | None =>
          let dst := mkDestination (uri con) identity true in
          let cfg :=
            if isDefault && Nat.eqb i 0
            then mkFile (mkConnection (name con)
                                      (Connections (Connection cfg)))
            else cfg in
          let cfg :=
            match Connections (Connection cfg) with
            | None =>
                let cfg :=
                  mkFile (mkConnection (Default (Connection cfg))
                                       (Some {[ name con := dst ]})) in
                mkFile (mkConnection (name con)
                                     (Connections (Connection cfg)))
            | Some g =>
                mkFile (mkConnection (Default (Connection cfg))
                                     (Some (<[ name con := dst ]> g)))
            end in
          add_loop identity isDefault (S i) conns cfg
      end
  end.

Definition addConnection (conns : list connection) (identity : string)
    (isDefault : bool) (st : Store ConnectionsFile)
  : Store ConnectionsFile * option error :=
  if (String.length identity <? 1)%nat then
    (st, Some (ErrNew "identity must be defined"))
  else
    let '(st, _, err) :=
      EditConnectionConfig (add_loop identity isDefault 0 conns) () st in
    (st, err).

Definition UpdateConnectionIfDefault (rootful : bool)
    (name rootfulName : string) (st : Store ConnectionsFile)
  : Store ConnectionsFile * option error :=
  let '(st, _, err) :=
    EditConnectionConfig
      (fun cfg =>
         let cfg :=
           if String.eqb name (Default (Connection cfg)) && rootful then
             mkFile (mkConnection rootfulName (Connections (Connection cfg)))
           else if String.eqb rootfulName (Default (Connection cfg))
                   && negb rootful then
             mkFile (mkConnection name (Connections (Connection cfg)))
           else cfg in
         (cfg, (), None))
      () st in
  (st, err).

(** The first loop of [setNewDefaultConnection]. *)
Fixpoint delete_loop (names : list string) (cfg : ConnectionsFile)
  : ConnectionsFile * option error :=
  match names with
  | [] => (cfg, None)
  | name :: names =>
      match Go.map_get (Connections (Connection cfg)) name with
      | Some _ =>
          let cfg :=
            mkFile (mkConnection (Default (Connection cfg))
                      (Go.map_delete (Connections (Connection cfg)) name)) in
          let cfg :=
            if String.eqb (Default (Connection cfg)) name
            then mkFile (mkConnection "" (Connections (Connection cfg)))
            else cfg in
          delete_loop names cfg
      | None =>
          (cfg, Some (Errorf "unable to find connection named %q" [name]))
      end
  end.

(** [dest] and [service] are the two out-parameters. *)
Definition setNewDefaultConnection `{Go.RangeOrder} (names : list string)
    (dest : Destination) (service : string) (cfg : ConnectionsFile)
  : ConnectionsFile * (Destination * string) * option error :=
  match delete_loop names cfg with
  | (cfg, Some err) => (cfg, (dest, service), Some err)
  | (cfg, None) =>
      match Go.map_range_first (Connections (Connection cfg)) with
      | Some con =>
          let cfg :=
            mkFile (mkConnection con (Connections (Connection cfg))) in
          match Go.map_get (Connections (Connection cfg)) con with
          | Some c => (cfg, (c, con), None)
          | None => (cfg, (dest, service), None)
          end
      | None => (cfg, (dest, service), None)
      end
  end.

Definition RemoveConnections `{Go.RangeOrder} (machines : gmap string bool)
    (names : list string) (st : Store ConnectionsFile)
  : Store ConnectionsFile * option error :=
  let dest := mkDestination "" "" false in
  let service := "" in
  match
    EditConnectionConfig
      (fun cfg => setNewDefaultConnection names dest service cfg)
      (dest, service) st
  with
  | (st, _, Some err) => (st, Some err)
  | (st, (dest, service), None) =>
      match machines !! service with
      | Some rootful =>
          if IsMachine dest
          then UpdateConnectionIfDefault rootful service
                 (service +:+ "-root") st
          else (st, None)
      | None => (st, None)
      end
  end.

End Connection.

(** ** The file system, as far as package os is used *)

Module OS.

(** Files by path; the paths the system refuses to create, overwrite
    or unlink (a read-only directory, a file owned by someone else); and
    the paths at which a write gives up after so many bytes (no room left
    on the device). *)
Record FS := mkFS {
  files : gmap string string;
  denied : gset string;
  torn : gmap string nat
}.

(** [os.WriteFile(path, data, 0644)]: the file is opened, which creates
    or truncates it, and the data are written to it.  The empty path
    names no file, and a refused open leaves the file as it was; a write
    that fails after the open leaves the file with what was written
    until then. *)
Definition WriteFile (path data : string) (fs : FS) : FS * option error :=
  if Go.is_empty path then (fs, Some (PathError "open" path ENOENT))
  else if bool_decide (path ∈ denied fs)
  then (fs, Some (PathError "open" path EACCES))
  else
    match torn fs !! path with
    | Some n =>
        (mkFS (<[ path := String.substring 0 n data ]> (files fs))
           (denied fs) (torn fs),
         Some (PathError "write" path ENOSPC))
    | None => (mkFS (<[ path := data ]> (files fs)) (denied fs) (torn fs), None)
    end.

(** [os.Remove(path)] *)
Definition Remove (path : string) (fs : FS) : FS * option error :=
  match files fs !! path with
  | None => (fs, Some (PathError "remove" path ENOENT))
  | Some _ =>
      if bool_decide (path ∈ denied fs)
      then (fs, Some (PathError "remove" path EACCES))
      else (mkFS (delete path (files fs)) (denied fs) (torn fs), None)
  end.

(** [errors.Is(err, os.ErrNotExist)] *)
Definition IsNotExist (err : error) : bool :=
  match err with
  | PathError _ _ ENOENT => true
  | _ => false
  end.

End OS.

(** ** Package applehv: machine.go *)

Module AppleHV.

Module VfkitHelper.
Record t := mk {
  Bootloader : string;
  Devices : list string;
  LogLevel : N;
  PathToVfkitBinary : string;
  Endpoint : string
}.
End VfkitHelper.

Module MacMachine.

Record t := mk {
  ConfigPath : VMFile;
  HostUser : Machine.HostUser;
  ImageConfig : Machine.ImageConfig;
  Mounts : list Machine.Mount;
  Name : string;
  ResourceConfig : Machine.ResourceConfig;
  SSHConfig : Machine.SSHConfig;
  Starting : bool;
  Created : Z;
  LastUp : Z;
  VfkitHelper : VfkitHelper.t
}.

(** Assignment to a field promoted from the embedded resource
    configuration. *)
Definition with_ResourceConfig (m : t) (r : Machine.ResourceConfig) : t :=
  mk (ConfigPath m) (HostUser m) (ImageConfig m) (Mounts m) (Name m) r
     (SSHConfig m) (Starting m) (Created m) (LastUp m) (VfkitHelper m).

Definition with_CPUs (m : t) (cpus : N) : t :=
  with_ResourceConfig m
    (Machine.mkResourceConfig cpus
       (Machine.DiskSize (ResourceConfig m))
       (Machine.Memory (ResourceConfig m))).

Definition with_Memory (m : t) (mem : N) : t :=
  with_ResourceConfig m
    (Machine.mkResourceConfig
       (Machine.CPUs (ResourceConfig m))
       (Machine.DiskSize (ResourceConfig m)) mem).

Definition with_DiskSize (m : t) (size : N) : t :=
  with_ResourceConfig m
    (Machine.mkResourceConfig
       (Machine.CPUs (ResourceConfig m)) size
       (Machine.Memory (ResourceConfig m))).

(** What the operations act on besides the record in memory: the files,
    the registry in containers.conf, and what was handed to
    [logrus.Error]. *)
Record World := mkWorld {
  fs : OS.FS;
  registry : Store Machine.Config;
  logged : list error
}.

Definition log (err : error) (w : World) : World :=
  mkWorld (fs w) (registry w) (logged w ++ [err]).

(** What machine.go calls and does not define: the vfkit helper's
    [state] (a query to the helper's endpoint; it reads and changes
    nothing here), [stop] and [startVfkit], and [json.MarshalIndent] on
    a machine record. *)
Class Env := {
  vfkit_state : VfkitHelper.t -> World -> Machine.Status + error;
  vfkit_stop : VfkitHelper.t -> bool -> bool -> World -> World * option error;
  startVfkit : VfkitHelper.t -> t -> World -> t * World * option error;
  MarshalIndent : t -> string + error
}.

Definition writeConfig `{Env} (m : t) (w : World) : World * option error :=
  match MarshalIndent m with
  | inr err => (w, Some err)
  | inl b =>
      let '(fs', err) := OS.WriteFile (Path (ConfigPath m)) b (fs w) in
      (mkWorld fs' (registry w) (logged w), err)
  end.

Definition State `{Env} (m : t) (w : World) : Machine.Status + error :=
  match vfkit_state (VfkitHelper m) w with
  | inr err => inr err
  | inl vmStatus => inl vmStatus
  end.

Definition Start `{Env} (name : string) (opts : Machine.StartOptions)
    (m : t) (w : World) : t * World * option error :=
  match State m w with
  | inr err => (m, w, Some err)
  | inl st =>
      if bool_decide (st = Machine.Running)
      then (m, w, Some ErrVMAlreadyRunning)
      else startVfkit (VfkitHelper m) m w
  end.

Definition Stop `{Env} (name : string) (opts : Machine.StopOptions)
    (m : t) (w : World) : World * option error :=
  match State m w with
  | inr err => (w, Some err)
  | inl vmState =>
      if bool_decide (vmState ≠ Machine.Running)
      then (w, Some ErrWrongState)
      else vfkit_stop (VfkitHelper m) false true w
  end.

Definition shrink_error : error :=
  ErrNew "new disk size smaller than existing disk size: cannot shrink disk size".

(** [Set] up to its final [switch]: the record and the world it leaves,
    and the errors collected in [setErrors], nil results included; or,
    when the state check returned before anything was collected, the
    error of that return.  ([Set] itself is a reserved word, hence
    [Set_] below.) *)
Definition Set_collect `{Env} (opts : Machine.SetOptions) (m : t) (w : World)
  : t * World * (list (option error) + error) :=
  let setErrors : list (option error) := [] in
  match State m w with
  | inr err => (m, w, inr err)
  | inl vmState =>
      if bool_decide (vmState ≠ Machine.Stopped)
      then (m, w, inr ErrWrongState)
      else
        let m :=
          match Machine.set_CPUs opts with
          | Some cpus => with_CPUs m cpus
          | None => m
          end in
        let m :=
          match Machine.set_Memory opts with
          | Some mem => with_Memory m mem
          | None => m
          end in
        let '(m, setErrors) :=
          match Machine.set_DiskSize opts with
          | Some newSize =>
              if (newSize <? Machine.DiskSize (ResourceConfig m))%N
              then (m, setErrors ++ [Some shrink_error])
              else (with_DiskSize m newSize, setErrors)
          | None => (m, setErrors)
          end in
        let '(w, err) := writeConfig m w in
        let setErrors := setErrors ++ [err] in
        (m, w, inl setErrors)
  end.

(** The [switch len(setErrors)] that ends [Set]. *)
Definition Set_return (setErrors : list (option error))
  : list (option error) * option error :=
  match length setErrors with
  | O => (setErrors, None)
  | 1%nat => ([], setErrors !!! 0%nat)
  | _ =>
      let lastErr := setErrors !!! (length setErrors - 1)%nat in
      (take (length setErrors - 1) setErrors, lastErr)
  end.

Definition Set_ `{Env} (name : string) (opts : Machine.SetOptions)
    (m : t) (w : World) : t * World * (list (option error) * option error) :=
  match Set_collect opts m w with
  | (m, w, inr err) => (m, w, ([], Some err))
  | (m, w, inl setErrors) => (m, w, Set_return setErrors)
  end.

(** The function [Remove] hands back: it unlinks the files, then drops
    the machine's two connections, logging what fails and going on. *)
Definition remove_files (files : list string) (w : World) : World :=
  fold_left
    (fun w f =>
       match OS.Remove f (fs w) with
       | (fs', Some err) =>
           let w := mkWorld fs' (registry w) (logged w) in
           if negb (OS.IsNotExist err) then log err w else w
       | (fs', None) => mkWorld fs' (registry w) (logged w)
       end)
    files w.

Definition remove_connection `{Go.RangeOrder} (name : string) (w : World)
  : World :=
  match Machine.RemoveConnections [name] (registry w) with
  | (reg, Some err) => log err (mkWorld (fs w) reg (logged w))
  | (reg, None) => mkWorld (fs w) reg (logged w)
  end.

Definition Remove_func `{Go.RangeOrder} (files : list string) (m : t)
    (w : World) : World * option error :=
  let w := remove_files files w in
  let w := remove_connection (Name m) w in
  let w := remove_connection (Name m +:+ "-root") w in
  (w, None).

Definition Remove `{Env} `{Go.RangeOrder} `{VMFileOps} (name : string)
    (opts : Machine.RemoveOptions) (m : t) (w : World)
  : World * (string * option (World -> World * option error) * option error) :=
  let files : list string := [] in
  let continue (w : World) :=
    let files :=
      if negb (Machine.SaveKeys opts)
      then files ++ [Machine.IdentityPath (SSHConfig m);
                     Machine.IdentityPath (SSHConfig m) +:+ ".pub"]
      else files in
    let files :=
      if negb (Machine.SaveIgnition opts)
      then files ++ [GetPath (Machine.IgnitionFile (ImageConfig m))]
      else files in
    let files :=
      if negb (Machine.SaveImage opts)
      then files ++ [GetPath (Machine.ImagePath (ImageConfig m))]
      else files in
    let files := files ++ [GetPath (ConfigPath m)] in
    let confirmationMessage :=
      String (Ascii.ascii_of_nat 10) "The following files will be deleted:"
      +:+ String (Ascii.ascii_of_nat 10) (String (Ascii.ascii_of_nat 10) "") in
    let confirmationMessage :=
      fold_left (fun acc msg => acc +:+ (msg +:+ String (Ascii.ascii_of_nat 10) ""))
                files confirmationMessage in
    let confirmationMessage :=
      confirmationMessage +:+ String (Ascii.ascii_of_nat 10) "" in
    (w, (confirmationMessage, Some (Remove_func files m), None)) in
  match vfkit_state (VfkitHelper m) w with
  | inr err => (w, ("", None, Some err))
  | inl vmState =>
      if bool_decide (vmState = Machine.Running) then
        if negb (Machine.Force opts) then
          (w, ("", None,
               Some (Errorf "invalid state: %s is running" [Name m])))
        else
          match vfkit_stop (VfkitHelper m) true true w with
          | (w, Some err) => (w, ("", None, Some err))
          | (w, None) => continue w
          end
      else continue w
  end.

End MacMachine.

End AppleHV.

(** ** Fragments as comma-joined sub-fields *)

Module Fragment.
Import Qemu.

(** The sub-fields of a fragment, a comma between any two of them. *)
Definition join (parts : list string) : string := String.concat "," parts.

(** A [key=value] sub-field, left out when the value is empty. *)
Definition field (key value : string) : list string :=
  if Go.is_empty value then [] else [key +:+ value].

(** A bare word, present when the flag is set. *)
Definition flag (word : string) (b : bool) : list string :=
  if b then [word] else [].

Definition starts_with_comma (s : string) : bool :=
  match s with
  | String c _ => Ascii.eqb c ","%char
  | EmptyString => false
  end.

Fixpoint ends_with_comma (s : string) : bool :=
  match s with
  | EmptyString => false
  | String c EmptyString => Ascii.eqb c ","%char
  | String _ s => ends_with_comma s
  end.

(** Neither the first nor the last character is a comma. *)
Definition no_edge_comma (s : string) : Prop :=
  starts_with_comma s = false ∧ ends_with_comma s = false.

(** What makes a sub-field fit to be joined: it is not empty and has no
    comma at either end. *)
Definition part_ok (p : string) : Prop :=
  Go.is_empty p = false ∧ no_edge_comma p.

Definition none_empty (ps : list string) : Prop :=
  Forall (fun p => Go.is_empty p = false) ps.

(** The sub-fields each descriptor emits. *)
Definition firmware_parts `{VMFileOps} (f : FirmwareConfigDevice.t)
  : list string :=
  field "name=" (FirmwareConfigDevice.Name f)
  ++ field "file=" (GetPath (FirmwareConfigDevice.IgnitionFile f))
  ++ field "string=" (FirmwareConfigDevice.ConfigString f).

Definition monitor_address `{VMFileOps} (q : QmpMonitor.t) : list string :=
  let network := Monitor.Network (QmpMonitor.Monitor q) in
  let address := GetPath (Monitor.Address (QmpMonitor.Monitor q)) in
  if Go.is_empty network || Go.is_empty address then []
  else [network +:+ ":" +:+ address].

Definition monitor_parts `{VMFileOps} (q : QmpMonitor.t) : list string :=
  monitor_address q
  ++ ["server=" +:+ QmpMonitor.GetServerStatus q;
      "wait=" +:+ QmpMonitor.GetWaitStatus q].

Definition socket_parts (s : Socket.t) : list string :=
  ["socket"; "id=vlan"]
  ++ (if 0 <=? Socket.FileDescriptor s
      then ["fd=" +:+ Go.Itoa (Socket.FileDescriptor s)] else []).

Definition virtfs_parts `{VMFileOps} (v : Virtfs.t) : list string :=
  ["local"]
  ++ field "path=" (GetPath (Virtfs.Path v))
  ++ field "mount_tag=" (Virtfs.MountTag v)
  ++ field "security_model=" (Virtfs.SecurityModel v)
  ++ flag "readonly" (Virtfs.ReadOnly v).

(** The same two descriptors read the way "a field left at its zero
    value is omitted" has it: a false flag and a zero descriptor number
    emit nothing. *)
Definition monitor_parts_zero_omitted `{VMFileOps} (q : QmpMonitor.t)
  : list string :=
  monitor_address q
  ++ flag "server=on" (QmpMonitor.Server q)
  ++ flag "wait=on" (QmpMonitor.Wait q).

Definition socket_parts_zero_omitted (s : Socket.t) : list string :=
  ["socket"; "id=vlan"]
  ++ (if Socket.FileDescriptor s =? 0 then []
      else ["fd=" +:+ Go.Itoa (Socket.FileDescriptor s)]).

(** Every field at its zero value omitted, in all four descriptors. *)
Definition zero_fields_omitted `{VMFileOps} : Prop :=
  (∀ f, FirmwareConfigDevice.ToCmdline f = ["-fw_cfg"; join (firmware_parts f)])
  ∧ (∀ q, QmpMonitor.ToCmdline q = ["-qmp"; join (monitor_parts_zero_omitted q)])
  ∧ (∀ s, Socket.ToCmdline s = join (socket_parts_zero_omitted s))
  ∧ (∀ v, Virtfs.ToCmdline v = ["-virtfs"; join (virtfs_parts v)]).

(** The string fields of the four descriptors hold no comma at either
    end (a path, a tag or a transport name normally holds none at all). *)
Definition firmware_clean `{VMFileOps} (f : FirmwareConfigDevice.t) : Prop :=
  no_edge_comma (FirmwareConfigDevice.Name f)
  ∧ no_edge_comma (GetPath (FirmwareConfigDevice.IgnitionFile f))
  ∧ no_edge_comma (FirmwareConfigDevice.ConfigString f).

Definition monitor_clean `{VMFileOps} (q : QmpMonitor.t) : Prop :=
  no_edge_comma (Monitor.Network (QmpMonitor.Monitor q))
  ∧ no_edge_comma (GetPath (Monitor.Address (QmpMonitor.Monitor q))).

Definition virtfs_clean `{VMFileOps} (v : Virtfs.t) : Prop :=
  no_edge_comma (GetPath (Virtfs.Path v))
  ∧ no_edge_comma (Virtfs.MountTag v)
  ∧ no_edge_comma (Virtfs.SecurityModel v).

(** The thirteen fragments of the whole command, in the order the spec
    lists them. *)
Definition fixed_order `{VMFileOps} (q : QemuCmd.t) : list (list string) :=
  [ ["-m"; Go.Itoa (QemuCmd.Memory q)];
    ["-smp"; Go.Itoa (QemuCmd.CPUs q)];
    concat (FirmwareConfigDevice.ToCmdline <$> QemuCmd.FirmwareConfigs q);
    QmpMonitor.ToCmdline (QemuCmd.QmpMonitor q);
    Network.ToCmdline (QemuCmd.Network q);
    SerialPort.ToCmdline (QemuCmd.SerialPort q);
    concat (Virtfs.ToCmdline <$> QemuCmd.Mounts q);
    ["-display"; if QemuCmd.Display q then "true" else "none"];
    ["-accel"; QemuCmd.Accelerator q];
    ["-cpu"; QemuCmd.CPU q];
    ["-drive"; "if=virtio,file=" +:+ QemuCmd.BootableImage q];
    (if Go.is_empty (QemuCmd.Bios q) then [] else ["-bios"; QemuCmd.Bios q]);
    ["-M"; QemuCmd.Machine q] ].

End Fragment.

(** ** What a registry's default may be *)

Module Registry.

(** The invariant of the spec's data model: a default that is set names
    an entry of the mapping. *)
Definition default_valid (default : string)
    (entries : option (gmap string Destination)) : Prop :=
  default ≠ "" → default ∈ Go.map_keys entries.

(** After the default's entry was removed: the default names an entry
    still there, or is empty when none is left. *)
Definition default_after_removal (default : string)
    (entries : option (gmap string Destination)) : Prop :=
  (Go.map_keys entries ≠ ∅ → default ∈ Go.map_keys entries)
  ∧ (Go.map_keys entries = ∅ → default = "").


End Registry.

(** ** What "persisted" means for a machine record *)

Module Persistence.
Import AppleHV.

(** The configuration file of [m] holds the serialisation of [m]. *)
Definition persisted `{MacMachine.Env} (m : MacMachine.t)
    (w : MacMachine.World) : Prop :=
  ∃ b, MacMachine.MarshalIndent m = inl b
       ∧ OS.files (MacMachine.fs w) !! Path (MacMachine.ConfigPath m) = Some b.

Definition disk (m : MacMachine.t) : N :=
  Machine.DiskSize (MacMachine.ResourceConfig m).

(** The record after the first two assignments of [Set]. *)
Definition after_cpus_memory (opts : Machine.SetOptions)
    (m : MacMachine.t) : MacMachine.t :=
  let m := match Machine.set_CPUs opts with
           | Some cpus => MacMachine.with_CPUs m cpus
           | None => m
           end in
  match Machine.set_Memory opts with
  | Some mem => MacMachine.with_Memory m mem
  | None => m
  end.

(** The disk-size rule of [Set] read to the letter: on a stopped
    machine a smaller size leaves the size alone and a shrink error comes
    back, and any other size is applied and persisted. *)
Definition disk_request_as_claimed `{MacMachine.Env} (name : string)
    (opts : Machine.SetOptions) (m : MacMachine.t) (w : MacMachine.World)
  : Prop :=
  MacMachine.State m w = inl Machine.Stopped →
  ∀ req, Machine.set_DiskSize opts = Some req →
  let r := MacMachine.Set_ name opts m w in
  ((req < disk m)%N →
     disk r.1.1 = disk m
     ∧ (Some MacMachine.shrink_error ∈ r.2.1
        ∨ r.2.2 = Some MacMachine.shrink_error))
  ∧ ((disk m ≤ req)%N → disk r.1.1 = req ∧ persisted r.1.1 r.1.2).

End Persistence.

(** ** [Set] and [Remove] of the applehv machine, in closed form *)

Module MacMachineShape.
Import AppleHV.

(** The disk size [Set] leaves: the requested one unless it is smaller
    than the current one. *)
Definition disk_after (opts : Machine.SetOptions) (m : MacMachine.t) : N :=
  match Machine.set_DiskSize opts with
  | Some req =>
      if (req <? Machine.DiskSize (MacMachine.ResourceConfig m))%N
      then Machine.DiskSize (MacMachine.ResourceConfig m) else req
  | None => Machine.DiskSize (MacMachine.ResourceConfig m)
  end.

Definition shrink_requested (opts : Machine.SetOptions) (m : MacMachine.t)
  : bool :=
  match Machine.set_DiskSize opts with
  | Some req => (req <? Machine.DiskSize (MacMachine.ResourceConfig m))%N
  | None => false
  end.

(** The resources [Set] leaves in the record. *)
Definition resources_after (opts : Machine.SetOptions) (m : MacMachine.t)
  : Machine.ResourceConfig :=
  Machine.mkResourceConfig
    (default (Machine.CPUs (MacMachine.ResourceConfig m)) (Machine.set_CPUs opts))
    (disk_after opts m)
    (default (Machine.Memory (MacMachine.ResourceConfig m)) (Machine.set_Memory opts)).

(** The paths [Remove] lists for deletion. *)
Definition removal_list `{VMFileOps} (opts : Machine.RemoveOptions)
    (m : MacMachine.t) : list string :=
  (if Machine.SaveKeys opts then []
   else [Machine.IdentityPath (MacMachine.SSHConfig m);
         Machine.IdentityPath (MacMachine.SSHConfig m) +:+ ".pub"])
  ++ (if Machine.SaveIgnition opts then []
      else [GetPath (Machine.IgnitionFile (MacMachine.ImageConfig m))])
  ++ (if Machine.SaveImage opts then []
      else [GetPath (Machine.ImagePath (MacMachine.ImageConfig m))])
  ++ [GetPath (MacMachine.ConfigPath m)].

Definition newline : string := String (Ascii.ascii_of_nat 10) "".

(** The message [Remove] shows before anything is deleted. *)
Definition removal_message (files : list string) : string :=
  newline +:+ "The following files will be deleted:" +:+ newline +:+ newline
  +:+ String.concat "" ((fun f => f +:+ newline) <$> files) +:+ newline.

(** The paths among [files] whose removal the system refuses. *)
Definition refused (files : list string) (fs : OS.FS) : list string :=
  filter (fun p => is_Some (OS.files fs !! p) ∧ p ∈ OS.denied fs) files.

End MacMachineShape.

(** ** Package applehv: loading and creating machines (machine.go, config.go) *)

Module AppleHVConfig.
Import AppleHV.

(** The errors of the loading functions: [fmt.Errorf] with [%w] wraps
    the error it is given, every other error is handed on as it is. *)
Inductive werror :=
| Wrap (format arg : string) (cause : error)
| Bare (err : error).

(** [errors.Is(err, target)] for a sentinel [target] *)
Definition Is (err : werror) (target : error) : bool :=
  match err with
  | Wrap _ _ cause => bool_decide (cause = target)
  | Bare err => bool_decide (err = target)
  end.

(** The fields of [machine.InitOptions] that [NewMachine] reads. *)
Record InitOptions := mkInitOptions {
  init_Name : string;
  init_CPUS : N;
  init_DiskSize : N;
  init_Memory : N
}.

(** What the loading code calls and does not define:
    [machine.GetConfDir(machine.AppleHvVirt)], [filepath.Join],
    [machine.NewMachineFile], [json.Unmarshal] into a machine record,
    the paths [os.ReadFile] is refused, and [time.Now()]. *)
Class Host := {
  GetConfDir : string + error;
  Join : string -> string -> string;
  NewMachineFile : string -> option string -> VMFile + error;
  Unmarshal : string -> MacMachine.t -> MacMachine.t + error;
  unreadable : string -> bool;
  now : Z
}.

(** [os.ReadFile(path)] *)
Definition ReadFile `{Host} (path : string) (fs : OS.FS) : string + error :=
  match OS.files fs !! path with
  | None => inr (PathError "open" path ENOENT)
  | Some data =>
      if unreadable path then inr (PathError "open" path EACCES)
      else inl data
  end.

(** [MacMachine{}] *)
Definition zero : MacMachine.t :=
  MacMachine.mk (mkVMFile "" None) (Machine.mkHostUser 0)
    (Machine.mkImageConfig (mkVMFile "" None) "" (mkVMFile "" None))
    [] "" (Machine.mkResourceConfig 0 0 0)
    (Machine.mkSSHConfig "" 0 "" false) false 0 0
    (VfkitHelper.mk "" [] 0 "" "").

Definition with_Name (m : MacMachine.t) (name : string) : MacMachine.t :=
  MacMachine.mk (MacMachine.ConfigPath m) (MacMachine.HostUser m)
    (MacMachine.ImageConfig m) (MacMachine.Mounts m) name
    (MacMachine.ResourceConfig m) (MacMachine.SSHConfig m)
    (MacMachine.Starting m) (MacMachine.Created m) (MacMachine.LastUp m)
    (MacMachine.VfkitHelper m).

Definition with_ConfigPath (m : MacMachine.t) (f : VMFile) : MacMachine.t :=
  MacMachine.mk f (MacMachine.HostUser m)
    (MacMachine.ImageConfig m) (MacMachine.Mounts m) (MacMachine.Name m)
    (MacMachine.ResourceConfig m) (MacMachine.SSHConfig m)
    (MacMachine.Starting m) (MacMachine.Created m) (MacMachine.LastUp m)
    (MacMachine.VfkitHelper m).

Definition with_IgnitionFile (m : MacMachine.t) (f : VMFile) : MacMachine.t :=
  MacMachine.mk (MacMachine.ConfigPath m) (MacMachine.HostUser m)
    (Machine.mkImageConfig f
       (Machine.ImageStream (MacMachine.ImageConfig m))
       (Machine.ImagePath (MacMachine.ImageConfig m)))
    (MacMachine.Mounts m) (MacMachine.Name m)
    (MacMachine.ResourceConfig m) (MacMachine.SSHConfig m)
    (MacMachine.Starting m) (MacMachine.Created m) (MacMachine.LastUp m)
    (MacMachine.VfkitHelper m).

Definition with_Created (m : MacMachine.t) (time : Z) : MacMachine.t :=
  MacMachine.mk (MacMachine.ConfigPath m) (MacMachine.HostUser m)
    (MacMachine.ImageConfig m) (MacMachine.Mounts m) (MacMachine.Name m)
    (MacMachine.ResourceConfig m) (MacMachine.SSHConfig m)
    (MacMachine.Starting m) time (MacMachine.LastUp m)
    (MacMachine.VfkitHelper m).

Definition getVMConfigPath `{Host} (configDir vmName : string) : string :=
  Join configDir (vmName +:+ ".json").

Definition loadMacMachineFromJSON `{Host} (fqConfigPath : string)
    (macMachine : MacMachine.t) (w : MacMachine.World)
  : MacMachine.t + werror :=
  match ReadFile fqConfigPath (MacMachine.fs w) with
  | inr err =>
      if OS.IsNotExist err
      then inr (Wrap "%q: %w" fqConfigPath ErrNoSuchVM)
      else inr (Bare err)
  | inl b =>
      match Unmarshal b macMachine with
      | inr err => inr (Bare err)
      | inl mm => inl mm
      end
  end.

Definition jsonConfigPath `{Host} (m : MacMachine.t) : string + error :=
  match GetConfDir with
  | inr err => inr err
  | inl configDir => inl (getVMConfigPath configDir (MacMachine.Name m))
  end.

Definition loadFromFile `{Host} (m : MacMachine.t) (w : MacMachine.World)
  : MacMachine.t + werror :=
  if (String.length (MacMachine.Name m) <? 1)%nat then
    inr (Bare (ErrNew "encountered machine with no name"))
  else
    match jsonConfigPath m with
    | inr err => inr (Bare err)
    | inl jsonPath =>
        let mm := zero in
        loadMacMachineFromJSON jsonPath mm w
    end.

Definition LoadVMByName `{Host} (name : string) (w : MacMachine.World)
  : MacMachine.t + werror :=
  let m := with_Name zero name in
  loadFromFile m w.

Definition NewMachine `{MacMachine.Env} `{Host} (opts : InitOptions)
    (w : MacMachine.World) : MacMachine.World * (MacMachine.t + werror) :=
  let m := with_Name zero (init_Name opts) in
  match GetConfDir with
  | inr err => (w, inr (Bare err))
  | inl configDir =>
      match NewMachineFile (getVMConfigPath configDir (init_Name opts)) None
      with
      | inr err => (w, inr (Bare err))
      | inl configPath =>
          let m := with_ConfigPath m configPath in
          match NewMachineFile (Join configDir (MacMachine.Name m) +:+ ".ign")
                  None with
          | inr err => (w, inr (Bare err))
          | inl ignitionPath =>
              let m := with_IgnitionFile m ignitionPath in
              let m := with_Created m now in
              let m :=
                MacMachine.with_ResourceConfig m
                  (Machine.mkResourceConfig (init_CPUS opts)
                     (init_DiskSize opts) (init_Memory opts)) in
              match MacMachine.writeConfig m w with
              | (w, Some err) => (w, inr (Bare err))
              | (w, None) => (w, loadFromFile m w)
              end
          end
      end
  end.

(** The record [NewMachine] writes. *)
Definition fresh `{Host} (opts : InitOptions) (configPath ignitionPath : VMFile)
  : MacMachine.t :=
  MacMachine.with_ResourceConfig
    (with_Created
       (with_IgnitionFile
          (with_ConfigPath (with_Name zero (init_Name opts)) configPath)
          ignitionPath)
       now)
    (Machine.mkResourceConfig (init_CPUS opts) (init_DiskSize opts)
       (init_Memory opts)).

End AppleHVConfig.

(** ** Package qemu: the options of an architecture *)

Module QemuArch.
Import Qemu.

(** What the architecture files call and do not define: whether
    [os.Stat] finds a directory, and [filepath.Join]. *)
Class Dirs := {
  stat_ok : string -> bool;
  Join : string -> string -> string
}.

(** The [range] loop of [getQemuUefiFile]. *)
Fixpoint uefi_loop `{Dirs} (dirs : list string) (name : string) : string :=
  match dirs with
  | [] => name
  | dir :: dirs =>
      if stat_ok dir then Join dir name else uefi_loop dirs name
  end.

Definition getQemuUefiFile `{Dirs} (name : string) : string :=
  let dirs := ["/usr/share/qemu-efi-aarch64"; "/usr/share/edk2/aarch64"] in
  uefi_loop dirs name.

Definition with_arch (cmd : QemuCmd.t) (accelerator cpu machine bios : string)
  : QemuCmd.t :=
  QemuCmd.mk (QemuCmd.Memory cmd) (QemuCmd.CPUs cmd) cpu bios
    (QemuCmd.BootableImage cmd) (QemuCmd.Display cmd) accelerator machine
    (QemuCmd.Mounts cmd) (QemuCmd.FirmwareConfigs cmd)
    (QemuCmd.QmpMonitor cmd) (QemuCmd.Network cmd) (QemuCmd.SerialPort cmd).

(** [addArchOptions] acts on the command line of the machine only. *)
Module Arm64.
Definition addArchOptions `{Dirs} (cmd : QemuCmd.t) : QemuCmd.t :=
  with_arch cmd "kvm" "host" "virt,gic-version=max"
    (getQemuUefiFile "QEMU_EFI.fd").
End Arm64.

Module Amd64.
Definition addArchOptions (cmd : QemuCmd.t) : QemuCmd.t :=
  with_arch cmd "kvm" "host" (QemuCmd.Machine cmd) (QemuCmd.Bios cmd).
End Amd64.

(** The end of the command line, from [-accel] on. *)
Definition arch_tail (accelerator cpu image bios machine : string)
  : list string :=
  ["-accel"; accelerator; "-cpu"; cpu; "-drive"; "if=virtio,file=" +:+ image]
  ++ (if Go.is_empty bios then [] else ["-bios"; bios])
  ++ ["-M"; machine].

(** A command line read as flags, each with its value. *)
Definition flat (pairs : list (string * string)) : list string :=
  concat ((fun p => [p.1; p.2]) <$> pairs).

Definition flags : list string :=
  ["-m"; "-smp"; "-fw_cfg"; "-qmp"; "-netdev"; "-device"; "-chardev";
   "-pidfile"; "-virtfs"; "-display"; "-accel"; "-cpu"; "-drive"; "-bios";
   "-M"].

End QemuArch.

(** ** Package qemu: volumes (machine_unix.go) *)

Module Volume.

(** [s] cut at the first [sep]: what is before it and what is after. *)
Fixpoint cut (sep : ascii) (s : string) : option (string * string) :=
  match s with
  | EmptyString => None
  | String c s =>
      if Ascii.eqb c sep then Some (EmptyString, s)
      else match cut sep s with
           | Some (a, b) => Some (String c a, b)
           | None => None
           end
  end.

(** [strings.SplitN(s, sep, n)] for a separator of one character and
    [n >= 0]: at most [n] pieces, the last one the rest uncut. *)
Fixpoint SplitN (s : string) (sep : ascii) (n : nat) : list string :=
  match n with
  | O => []
  | S n' =>
      match n' with
      | O => [s]
      | S _ =>
          match cut sep s with
          | None => [s]
          | Some (a, b) => a :: SplitN b sep n'
          end
      end
  end.

Definition pathsFromVolume (volume : string) : list string :=
  SplitN volume ":"%char 3.

(** Indexing a slice out of range panics: [None]. *)
Definition extractTargetPath (paths : list string) : option string :=
  if (1 <? length paths)%nat then paths !! 1%nat else paths !! 0%nat.

Fixpoint has (sep : ascii) (s : string) : bool :=
  match s with
  | EmptyString => false
  | String c s => Ascii.eqb c sep || has sep s
  end.

End Volume.

(** ** Package machine: named pipes (machine_windows.go) *)

Module Windows.

Definition pipe_path (pipeName : string) : string :=
  "\\.\pipe\" +:+ pipeName.

(** The loop of [WaitPipeExists] from turn [i] on with [n] turns left:
    [stat] and [check] give what [os.Stat] and [checkFailure] answer in
    each turn. *)
Fixpoint wait_loop (stat check : nat -> option error) (i n : nat)
    (err : option error) : option error :=
  match n with
  | O => err
  | S n =>
      match stat i with
      | None => None
      | Some err =>
          match check i with
          | Some fail => Some fail
          | None => wait_loop stat check (S i) n (Some err)
          end
      end
  end.

Definition WaitPipeExists (Stat : string -> nat -> option error)
    (pipeName : string) (retries : Z) (checkFailure : nat -> option error)
  : option error :=
  wait_loop (Stat (pipe_path pipeName)) checkFailure 0 (Z.to_nat retries) None.

End Windows.

(** ** Package hyperv: errors of a clean-up *)

Module HyperV.

(** [handlePrevError]: what it returns, and what [logrus.Error] was
    handed. *)
Definition handlePrevError (e prevErr : option error)
    (logged : list (option error)) : option error * list (option error) :=
  let logged :=
    if bool_decide (prevErr ≠ None) then logged ++ [e] else logged in
  (e, logged).

(** The way [RemoveAndCleanMachines] uses it, once per step:
    [if err := step(); err != nil { prevErr = handlePrevError(err, prevErr) }],
    the outcomes of the steps given; [prevErr] is returned at the end. *)
Definition thread_errors (steps : list (option error))
  : option error * list (option error) :=
  fold_left
    (fun '(prevErr, logged) step =>
       match step with
       | Some err => handlePrevError (Some err) prevErr logged
       | None => (prevErr, logged)
       end)
    steps (None, []).

End HyperV.

(** * Concrete environments and inputs *)

Module Sample.
Import AppleHV.

(** A machine file is reached through its symlink when it has one. *)
Definition symlink_or_path : VMFileOps :=
  fun f => match Symlink f with Some l => l | None => Path f end.

(** One admissible iteration order: the first key of the map's listing. *)
Definition first_key : Go.RangeOrder.
Proof.
  refine {| Go.range_first := fun V g => fst <$> head (map_to_list g) |}.
  - intros V g k Hk.
    destruct (map_to_list g) as [|[k' v] l] eqn:E; simplify_eq/=.
    exists v. apply elem_of_map_to_list. rewrite E. left.
  - intros V g Hk.
    destruct (map_to_list g) eqn:E; [by apply map_to_list_empty_iff | done].
Defined.


(** The machine of the spec's scenario: 2 CPUs, 2048 MB, 20 GB. *)
Definition box : MacMachine.t :=
  MacMachine.mk
    (mkVMFile "/conf/applehv/box.json" None)
    (Machine.mkHostUser 501)
    (Machine.mkImageConfig (mkVMFile "/conf/applehv/box.ign" None) "testing"
       (mkVMFile "/data/applehv/box.raw" None))
    []
    "box"
    (Machine.mkResourceConfig 2 20 2048)
    (Machine.mkSSHConfig "/home/u/.ssh/box" 22 "core" false)
    false 1700000000 0
    (VfkitHelper.mk "efi" [] 4 "/usr/bin/vfkit" "http://localhost:8081").

(** A hypervisor that reports the given state, stops and starts without
    complaint, and a serialiser that writes name and resources. *)
Definition env (st : Machine.Status + error) : MacMachine.Env :=
  {| MacMachine.vfkit_state := fun _ _ => st;
     MacMachine.vfkit_stop := fun _ _ _ w => (w, None);
     MacMachine.startVfkit := fun _ m w => (m, w, None);
     MacMachine.MarshalIndent := fun m =>
       inl (MacMachine.Name m
            +:+ " cpus=" +:+ Go.Itoa (Z.of_N (Machine.CPUs (MacMachine.ResourceConfig m)))
            +:+ " disk=" +:+ Go.Itoa (Z.of_N (Machine.DiskSize (MacMachine.ResourceConfig m)))
            +:+ " memory=" +:+ Go.Itoa (Z.of_N (Machine.Memory (MacMachine.ResourceConfig m)))) |}.

Definition dest (uri : string) (machine : bool) : Destination :=
  mkDestination uri "/home/u/.ssh/box" machine.

(** containers.conf with the two connections of [box] and one more. *)
Definition engine_conf : Store Machine.Config :=
  mkStore
    (Machine.mkConfig
       (Machine.mkEngine "box"
          (Some (<[ "box" := dest "ssh://core@localhost:22/run/user/501/podman/podman.sock" true ]>
                (<[ "box-root" := dest "ssh://root@localhost:22/run/podman/podman.sock" true ]>
                (<[ "remote" := dest "ssh://me@example.org/run/podman/podman.sock" false ]> ∅))))))
    None None.

(** The files of [box], all present; nothing is write-protected. *)
Definition box_files : gmap string string :=
  <[ "/conf/applehv/box.json" := "box cpus=2 disk=20 memory=2048" ]>
  (<[ "/conf/applehv/box.ign" := "{}" ]>
  (<[ "/data/applehv/box.raw" := "image" ]>
  (<[ "/home/u/.ssh/box" := "key" ]>
  (<[ "/home/u/.ssh/box.pub" := "key.pub" ]> ∅)))).

Definition world : MacMachine.World :=
  MacMachine.mkWorld (OS.mkFS box_files ∅ ∅) engine_conf [].

Definition grow_to_40 : Machine.SetOptions :=
  Machine.mkSetOptions (Some 4%N) (Some 40%N) None.

Definition shrink_to_10 : Machine.SetOptions :=
  Machine.mkSetOptions None (Some 10%N) None.

Definition keep_nothing : Machine.RemoveOptions :=
  Machine.mkRemoveOptions false false false false.

(** The same, the configuration file write-protected. *)
Definition world_readonly : MacMachine.World :=
  MacMachine.mkWorld (OS.mkFS box_files {[ "/conf/applehv/box.json" ]} ∅)
    engine_conf [].

(** Connections files: never written (the mapping is nil), holding an
    empty mapping (as a file with [{"Connections": {}}] decodes), and
    holding entries. *)
Definition connections_nil : Store Connection.ConnectionsFile :=
  mkStore (Connection.mkFile (Connection.mkConnection "" None)) None None.

Definition connections_empty : Store Connection.ConnectionsFile :=
  mkStore (Connection.mkFile (Connection.mkConnection "" (Some ∅))) None None.

Definition connections_of (default : string)
    (entries : list (string * Destination)) : Store Connection.ConnectionsFile :=
  mkStore
    (Connection.mkFile (Connection.mkConnection default (Some (list_to_map entries))))
    None None.

Definition engine_nil : Store Machine.Config :=
  mkStore (Machine.mkConfig (Machine.mkEngine "" None)) None None.

Definition engine_empty : Store Machine.Config :=
  mkStore (Machine.mkConfig (Machine.mkEngine "" (Some ∅))) None None.

Definition dev : Connection.connection :=
  Connection.mkCon "dev" "ssh://core@localhost:2222/run/user/501/podman/podman.sock".

(** A connections file with the pair of [box], a remote host and an old
    entry, [box] being the default. *)
Definition connections_four : Store Connection.ConnectionsFile :=
  connections_of "box"
    [("box", dest "ssh://core@localhost:22/run/user/501/podman/podman.sock" true);
     ("box-root", dest "ssh://root@localhost:22/run/podman/podman.sock" true);
     ("remote", dest "ssh://me@example.org/run/podman/podman.sock" false);
     ("old", dest "ssh://me@old.example.org/run/podman/podman.sock" false)].


(** Device descriptors of a qemu machine. *)
Definition fw_ignition : Qemu.FirmwareConfigDevice.t :=
  Qemu.FirmwareConfigDevice.mk "opt/com.coreos/config"
    (mkVMFile "/conf/qemu/box.ign" None) "".

Definition monitor_unix : Qemu.QmpMonitor.t :=
  Qemu.QmpMonitor.mk
    (Qemu.Monitor.mk (mkVMFile "/run/qmp_box.sock" None) "unix" 2) true false.

Definition monitor_zero : Qemu.QmpMonitor.t :=
  Qemu.QmpMonitor.mk (Qemu.Monitor.mk (mkVMFile "" None) "" 0) false false.

Definition socket_zero : Qemu.Socket.t := Qemu.Socket.mk "" 0.

Definition mount_home : Qemu.Virtfs.t :=
  Qemu.Virtfs.mk (mkVMFile "/home/u" None) "vol0" "none" true.

Definition ready_box : Qemu.CharDev.t :=
  Qemu.CharDev.mk (mkVMFile "/run/box_ready.sock" None) true false "box_ready".

Definition ready_other : Qemu.CharDev.t :=
  Qemu.CharDev.mk (mkVMFile "/run/box_ready.sock" None) false false "other_ready".

Definition qemu_box : Qemu.QemuCmd.t :=
  Qemu.QemuCmd.mk 2048 2 "host" "/usr/share/edk2/aarch64/QEMU_EFI.fd"
    "/data/qemu/box.qcow2" false "kvm" "virt,gic-version=max"
    [mount_home] [fw_ignition] monitor_unix
    (Qemu.Network.mk (Qemu.Socket.mk "vlan" 3)
       (Qemu.VirtioNet.mk "vlan" "5a:94:ef:e4:0c:ee"))
    (Qemu.SerialPort.mk (mkVMFile "/run/box_vm.pid" None) ready_box
       (Qemu.VirtSerialPort.mk "box_ready" "abox_ready")).

End Sample.

(** A host for the loading code, and options to create machines with. *)

Module SampleHost.
Import AppleHV AppleHVConfig.

(** The serialiser of [Sample.env] read backwards, for the one record it
    is needed for here; a plain host otherwise. *)
Definition host : Host :=
  {| GetConfDir := inl "/conf/applehv";
     Join := fun dir name => dir +:+ "/" +:+ name;
     NewMachineFile := fun path symlink => inl (mkVMFile path symlink);
     Unmarshal := fun b m =>
       if String.eqb b "box cpus=2 disk=20 memory=2048"
       then inl (MacMachine.with_ResourceConfig (with_Name m "box")
                   (Machine.mkResourceConfig 2 20 2048))
       else inr (ErrNew "unexpected end of JSON input");
     unreadable := fun _ => false;
     now := 1700000000 |}.


Definition init_nameless : InitOptions := mkInitOptions "" 2 20 2048.

Definition empty_world : MacMachine.World :=
  MacMachine.mkWorld (OS.mkFS ∅ ∅ ∅) Sample.engine_nil [].

End SampleHost.

(** * Properties *)

(** ** Strings and folds *)

#[local] Arguments String.append : simpl nomatch.

Lemma string_app_assoc (a b c : string) : (a +:+ b) +:+ c = a +:+ (b +:+ c).
Proof. induction a as [|x a IH]; simpl; [done|]. by rewrite IH. Qed.

Lemma is_empty_app (a b : string) :
  Go.is_empty (a +:+ b) = Go.is_empty a && Go.is_empty b.
Proof. by destruct a. Qed.

(** A loop that appends one fragment per element appends the fragments'
    concatenation. *)
Lemma fold_left_append {A B} (f : A → list B) (l : list A) (acc : list B) :
  fold_left (fun acc x => acc ++ f x) l acc = acc ++ concat (f <$> l).
Proof.
  revert acc. induction l as [|x l IH]; intros acc; simpl.
  - by rewrite app_nil_r.
  - by rewrite IH, <- app_assoc.
Qed.

Module QemuFacts.
Import Qemu Fragment.

Section WithFiles.
Context `{VMFileOps}.

Lemma firmware_fragment (f : FirmwareConfigDevice.t) :
  FirmwareConfigDevice.ToCmdline f = ["-fw_cfg"; join (firmware_parts f)].
Proof.
  unfold FirmwareConfigDevice.ToCmdline, firmware_parts, field, join.
  destruct (FirmwareConfigDevice.Name f),
    (GetPath (FirmwareConfigDevice.IgnitionFile f)),
    (FirmwareConfigDevice.ConfigString f);
    simpl; rewrite ?string_app_assoc; reflexivity.
Qed.

Lemma monitor_fragment (q : QmpMonitor.t) :
  QmpMonitor.ToCmdline q = ["-qmp"; join (monitor_parts q)].
Proof.
  unfold QmpMonitor.ToCmdline, monitor_parts, monitor_address, join.
  destruct (Monitor.Network (QmpMonitor.Monitor q)),
    (GetPath (Monitor.Address (QmpMonitor.Monitor q)));
    simpl; rewrite ?string_app_assoc; reflexivity.
Qed.

Lemma socket_fragment (s : Socket.t) :
  Socket.ToCmdline s = join (socket_parts s).
Proof.
  unfold Socket.ToCmdline, socket_parts, join.
  destruct (0 <=? Socket.FileDescriptor s); reflexivity.
Qed.

Lemma virtfs_fragment (v : Virtfs.t) :
  Virtfs.ToCmdline v = ["-virtfs"; join (virtfs_parts v)].
Proof.
  unfold Virtfs.ToCmdline, virtfs_parts, field, flag, join.
  destruct (GetPath (Virtfs.Path v)), (Virtfs.MountTag v),
    (Virtfs.SecurityModel v), (Virtfs.ReadOnly v);
    simpl; rewrite ?string_app_assoc; reflexivity.
Qed.

(** *** No comma at either end *)

Lemma starts_with_comma_app (a b : string) :
  starts_with_comma (a +:+ b) =
    if Go.is_empty a then starts_with_comma b else starts_with_comma a.
Proof. by destruct a. Qed.

Lemma ends_with_comma_app (a b : string) :
  ends_with_comma (a +:+ b) =
    if Go.is_empty b then ends_with_comma a else ends_with_comma b.
Proof.
  induction a as [|x a IH]; simpl.
  - by destruct b.
  - destruct (a +:+ b) eqn:E.
    + destruct a; [|done]. simpl in E. by subst b.
    + rewrite IH. destruct b as [|y b]; [|done].
      destruct a; [done|reflexivity].
Qed.

Lemma join_nonempty (ps : list string) :
  ps ≠ [] → Forall part_ok ps → Go.is_empty (join ps) = false.
Proof.
  destruct ps as [|p ps]; [done|]. intros _ Hps.
  inversion Hps as [|? ? [Hp _] _]; subst.
  destruct ps; [done|].
  change (join (p :: s :: ps)) with (p +:+ "," +:+ join (s :: ps)).
  by rewrite is_empty_app, Hp.
Qed.

Lemma join_no_edge_comma (ps : list string) :
  Forall part_ok ps → no_edge_comma (join ps).
Proof.
  induction ps as [|p ps IH]; intros Hps; [done|].
  inversion Hps as [|? ? [Hp [Hs He]] Hps']; subst.
  destruct ps as [|p' ps]; [done|].
  change (join (p :: p' :: ps)) with (p +:+ "," +:+ join (p' :: ps)).
  destruct (IH Hps') as [_ IHe].
  split.
  - by rewrite starts_with_comma_app, Hp.
  - rewrite !ends_with_comma_app, is_empty_app.
    by rewrite (join_nonempty (p' :: ps)).
Qed.

Lemma field_ok (key value : string) :
  Go.is_empty key = false → starts_with_comma key = false →
  no_edge_comma value → Forall part_ok (field key value).
Proof.
  intros Hk Hs [_ He]. unfold field.
  destruct (Go.is_empty value) eqn:Hv; constructor; [|constructor].
  split; [by rewrite is_empty_app, Hk|].
  split; [by rewrite starts_with_comma_app, Hk|].
  by rewrite ends_with_comma_app, Hv.
Qed.

Lemma flag_ok (word : string) (b : bool) :
  part_ok word → Forall part_ok (flag word b).
Proof. intros Hw. destruct b; repeat constructor; apply Hw. Qed.

(** A printed number ends in a digit. *)
Lemma string_of_uint_ends (d : Decimal.uint) :
  ends_with_comma (NilEmpty.string_of_uint d) = false.
Proof.
  induction d; simpl; try done;
    destruct (NilEmpty.string_of_uint d); done.
Qed.

Lemma Itoa_ok (n : Z) :
  Go.is_empty (Go.Itoa n) = false ∧ ends_with_comma (Go.Itoa n) = false.
Proof.
  unfold Go.Itoa.
  assert (Hu : ∀ d, Go.is_empty (NilZero.string_of_uint d) = false
                   ∧ ends_with_comma (NilZero.string_of_uint d) = false).
  { intros d. destruct d; simpl; try done;
      (split; [done|]);
      pose proof (string_of_uint_ends d) as Hd;
      destruct (NilEmpty.string_of_uint d); done. }
  destruct (Z.to_int n) as [d|d]; simpl; [apply Hu|].
  destruct (Hu d) as [Hne He]. split; [done|].
  destruct (NilZero.string_of_uint d); done.
Qed.

Lemma firmware_parts_ok (f : FirmwareConfigDevice.t) :
  firmware_clean f → Forall part_ok (firmware_parts f).
Proof.
  intros (Hn & Hi & Hc). unfold firmware_parts.
  rewrite !Forall_app. repeat split; by apply field_ok.
Qed.

Lemma monitor_parts_ok (q : QmpMonitor.t) :
  monitor_clean q → Forall part_ok (monitor_parts q).
Proof.
  intros ([Hns Hne] & [Has Hae]). unfold monitor_parts, monitor_address.
  rewrite Forall_app. split.
  - destruct (Go.is_empty (Monitor.Network (QmpMonitor.Monitor q))) eqn:Hn,
      (Go.is_empty (GetPath (Monitor.Address (QmpMonitor.Monitor q)))) eqn:Ha;
      cbv [orb]; constructor; [|constructor].
    split; [by rewrite is_empty_app, Hn|].
    split; [by rewrite starts_with_comma_app, Hn|].
    by rewrite !ends_with_comma_app, is_empty_app, Ha.
  - unfold QmpMonitor.GetServerStatus, QmpMonitor.GetWaitStatus.
    destruct (QmpMonitor.Server q), (QmpMonitor.Wait q);
      repeat constructor.
Qed.

Lemma socket_parts_ok (s : Socket.t) : Forall part_ok (socket_parts s).
Proof.
  unfold socket_parts.
  destruct (0 <=? Socket.FileDescriptor s); repeat constructor.
  simpl. destruct (Itoa_ok (Socket.FileDescriptor s)) as [Hne He].
  destruct (Go.Itoa (Socket.FileDescriptor s)); done.
Qed.

Lemma virtfs_parts_ok (v : Virtfs.t) :
  virtfs_clean v → Forall part_ok (virtfs_parts v).
Proof.
  intros (Hp & Hm & Hs). unfold virtfs_parts.
  rewrite !Forall_app. repeat split;
    try (by apply field_ok); try (by apply flag_ok);
    repeat constructor.
Qed.

Lemma part_ok_none_empty (ps : list string) :
  Forall part_ok ps → none_empty ps.
Proof. intros Hps. eapply Forall_impl; [exact Hps|]. by intros p [Hp _]. Qed.

Lemma field_none_empty (key value : string) :
  Go.is_empty key = false → none_empty (field key value).
Proof.
  intros Hk. unfold field, none_empty.
  destruct (Go.is_empty value); repeat constructor.
  by rewrite is_empty_app, Hk.
Qed.

Lemma firmware_parts_none_empty (f : FirmwareConfigDevice.t) :
  none_empty (firmware_parts f).
Proof.
  unfold firmware_parts, none_empty. rewrite !Forall_app.
  repeat split; by apply field_none_empty.
Qed.

Lemma monitor_parts_none_empty (q : QmpMonitor.t) :
  none_empty (monitor_parts q).
Proof.
  unfold monitor_parts, monitor_address, none_empty. rewrite Forall_app.
  split.
  - destruct (Go.is_empty (Monitor.Network (QmpMonitor.Monitor q))) eqn:Hn;
      cbv [orb]; [constructor|].
    destruct (Go.is_empty (GetPath _)); repeat constructor.
    by rewrite is_empty_app, Hn.
  - unfold QmpMonitor.GetServerStatus, QmpMonitor.GetWaitStatus.
    destruct (QmpMonitor.Server q), (QmpMonitor.Wait q);
      repeat constructor.
Qed.

Lemma virtfs_parts_none_empty (v : Virtfs.t) :
  none_empty (virtfs_parts v).
Proof.
  unfold virtfs_parts, none_empty. rewrite !Forall_app.
  repeat split; try (by apply field_none_empty); [by repeat constructor|].
  unfold flag. destruct (Virtfs.ReadOnly v); by repeat constructor.
Qed.

End WithFiles.

(** C5, as amended.  Each of the four descriptors (firmware-config,
    monitor, network socket, filesystem share) serialises to the
    sub-fields it emits, joined by single commas; no emitted sub-field is
    empty, and when the string fields hold no comma at either end the
    fragment has none either.  An empty string field and a false
    read-only flag are omitted; the monitor's [Server] and [Wait] are
    always emitted, as [on] or [off]; the socket's id is always the
    literal [vlan] and its descriptor number is emitted whenever it is
    not negative, zero included. *)
Theorem fragments_join_emitted_fields `{VMFileOps} :
  (∀ f, FirmwareConfigDevice.ToCmdline f = ["-fw_cfg"; join (firmware_parts f)]
        ∧ none_empty (firmware_parts f)
        ∧ (firmware_clean f → no_edge_comma (join (firmware_parts f))))
  ∧ (∀ q, QmpMonitor.ToCmdline q = ["-qmp"; join (monitor_parts q)]
        ∧ none_empty (monitor_parts q)
        ∧ (monitor_clean q → no_edge_comma (join (monitor_parts q))))
  ∧ (∀ s, Socket.ToCmdline s = join (socket_parts s)
        ∧ none_empty (socket_parts s)
        ∧ no_edge_comma (join (socket_parts s)))
  ∧ (∀ v, Virtfs.ToCmdline v = ["-virtfs"; join (virtfs_parts v)]
        ∧ none_empty (virtfs_parts v)
        ∧ (virtfs_clean v → no_edge_comma (join (virtfs_parts v)))).
Proof.
  split; [|split; [|split]]; intros x; (split; [|split]).
  - apply firmware_fragment.
  - apply firmware_parts_none_empty.
  - intros Hc. by apply join_no_edge_comma, firmware_parts_ok.
  - apply monitor_fragment.
  - apply monitor_parts_none_empty.
  - intros Hc. by apply join_no_edge_comma, monitor_parts_ok.
  - apply socket_fragment.
  - apply part_ok_none_empty, socket_parts_ok.
  - apply join_no_edge_comma, socket_parts_ok.
  - apply virtfs_fragment.
  - apply virtfs_parts_none_empty.
  - intros Hc. by apply join_no_edge_comma, virtfs_parts_ok.
Qed.

Lemma fragments_join_emitted_fields_witness :
  firmware_clean (H := Sample.symlink_or_path) Sample.fw_ignition
  ∧ monitor_clean (H := Sample.symlink_or_path) Sample.monitor_unix
  ∧ virtfs_clean (H := Sample.symlink_or_path) Sample.mount_home
  ∧ no_edge_comma (join (firmware_parts (H := Sample.symlink_or_path) Sample.fw_ignition))
  ∧ no_edge_comma (join (monitor_parts (H := Sample.symlink_or_path) Sample.monitor_unix))
  ∧ no_edge_comma (join (virtfs_parts (H := Sample.symlink_or_path) Sample.mount_home)).
Proof.
  pose proof (fragments_join_emitted_fields (H := Sample.symlink_or_path))
    as (Hf & Hq & _ & Hv).
  assert (Cf : firmware_clean (H := Sample.symlink_or_path) Sample.fw_ignition)
    by (repeat split).
  assert (Cq : monitor_clean (H := Sample.symlink_or_path) Sample.monitor_unix)
    by (repeat split).
  assert (Cv : virtfs_clean (H := Sample.symlink_or_path) Sample.mount_home)
    by (repeat split).
  split; [exact Cf|]. split; [exact Cq|]. split; [exact Cv|].
  split; [|split].
  - exact (proj2 (proj2 (Hf Sample.fw_ignition)) Cf).
  - exact (proj2 (proj2 (Hq Sample.monitor_unix)) Cq).
  - exact (proj2 (proj2 (Hv Sample.mount_home)) Cv).
Defined.

(** C5, as stated, fails: the zero-valued socket has its descriptor
    number 0 emitted as [fd=0], and the zero-valued monitor has both
    flags emitted as [off]. *)
Lemma zero_fields_are_emitted :
  Socket.ToCmdline Sample.socket_zero = "socket,id=vlan,fd=0"
  ∧ QmpMonitor.ToCmdline (H := Sample.symlink_or_path) Sample.monitor_zero
    = ["-qmp"; "server=off,wait=off"]
  ∧ ¬ zero_fields_omitted (H := Sample.symlink_or_path).
Proof.
  split; [reflexivity|]. split; [reflexivity|].
  intros (_ & _ & Hs & _). specialize (Hs Sample.socket_zero). discriminate Hs.
Qed.

(** C4.  Command synthesis is a function of the device model alone: two
    calls on the same [QemuCmd] value give the same argument vector, and
    that vector is the concatenation of the thirteen fragments in the
    fixed order memory, cpu count, firmware configs, monitor, network,
    serial, mounts, display, accelerator, cpu model, boot drive, bios,
    machine type; the bios fragment of a command whose [Bios] is set is
    [-bios] followed by it. *)
Theorem ToCmdline_fixed_order `{VMFileOps} (q q' : QemuCmd.t) :
  (q' = q → QemuCmd.ToCmdline q' = QemuCmd.ToCmdline q)
  ∧ QemuCmd.ToCmdline q = concat (fixed_order q)
  ∧ length (fixed_order q) = 13%nat
  ∧ (Go.is_empty (QemuCmd.Bios q) = false →
     fixed_order q !! 11%nat = Some ["-bios"; QemuCmd.Bios q]).
Proof.
  split; [by intros ->|]. split; [|split; [reflexivity|]].
  - unfold QemuCmd.ToCmdline, fixed_order.
    rewrite !fold_left_append.
    destruct (QemuCmd.Display q), (Go.is_empty (QemuCmd.Bios q));
      cbn [negb concat]; rewrite ?app_nil_r, <- ?app_assoc; reflexivity.
  - intros Hb. unfold fixed_order. by rewrite Hb.
Qed.

Lemma ToCmdline_fixed_order_witness :
  QemuCmd.ToCmdline (H := Sample.symlink_or_path) Sample.qemu_box =
  ["-m"; "2048"; "-smp"; "2";
   "-fw_cfg"; "name=opt/com.coreos/config,file=/conf/qemu/box.ign";
   "-qmp"; "unix:/run/qmp_box.sock,server=on,wait=off";
   "-netdev"; "socket,id=vlan,fd=3";
   "-device"; "virtio-net-pci,netdev=vlan,mac=5a:94:ef:e4:0c:ee";
   "-device"; "virtio-serial";
   "-chardev"; "socket,path=/run/box_ready.sock,server=on,wait=off,id=apodman-machine-default_ready";
   "-device"; "virtserialport,chardev=abox_ready,name=box_ready";
   "-pidfile"; "/run/box_vm.pid";
   "-virtfs"; "local,path=/home/u,mount_tag=vol0,security_model=none,readonly";
   "-display"; "none"; "-accel"; "kvm"; "-cpu"; "host";
   "-drive"; "if=virtio,file=/data/qemu/box.qcow2";
   "-bios"; "/usr/share/edk2/aarch64/QEMU_EFI.fd";
   "-M"; "virt,gic-version=max"]
  ∧ fixed_order (H := Sample.symlink_or_path) Sample.qemu_box !! 11%nat
    = Some ["-bios"; "/usr/share/edk2/aarch64/QEMU_EFI.fd"].
Proof.
  pose proof (ToCmdline_fixed_order (H := Sample.symlink_or_path)
                Sample.qemu_box Sample.qemu_box) as (_ & Hq & _ & Hb).
  split; [rewrite Hq; reflexivity | exact (Hb eq_refl)].
Defined.

(** C10.  Two [CharDev] values that differ at most in [ID] and [Server]
    serialise alike: the fragment holds [server=on] and the identifier
    [apodman-machine-default_ready] whatever the descriptor's [Server]
    and [ID] say, after the socket path when there is one. *)
Theorem chardev_ignores_ID_and_Server `{VMFileOps} (c1 c2 : CharDev.t) :
  CharDev.SocketPath c1 = CharDev.SocketPath c2 →
  CharDev.Wait c1 = CharDev.Wait c2 →
  CharDev.ToCmdline c1 = CharDev.ToCmdline c2
  ∧ CharDev.ToCmdline c1 =
      ["-chardev";
       join (field "socket,path=" (GetPath (CharDev.SocketPath c1))
             ++ ["server=on"; "wait=" +:+ CharDev.GetWaitStatus c1;
                 "id=apodman-machine-default_ready"])].
Proof.
  intros Hp Hw. split.
  - unfold CharDev.ToCmdline, CharDev.GetWaitStatus. by rewrite Hp, Hw.
  - unfold CharDev.ToCmdline, CharDev.Sprintf_id_ready, field, join.
    destruct (GetPath (CharDev.SocketPath c1)); simpl;
      rewrite ?string_app_assoc; simpl; rewrite ?string_app_assoc;
      reflexivity.
Qed.

Lemma chardev_ignores_ID_and_Server_witness :
  CharDev.ID Sample.ready_box ≠ CharDev.ID Sample.ready_other
  ∧ CharDev.Server Sample.ready_box ≠ CharDev.Server Sample.ready_other
  ∧ CharDev.ToCmdline (H := Sample.symlink_or_path) Sample.ready_box
    = CharDev.ToCmdline (H := Sample.symlink_or_path) Sample.ready_other
  ∧ CharDev.ToCmdline (H := Sample.symlink_or_path) Sample.ready_other
    = ["-chardev";
       "socket,path=/run/box_ready.sock,server=on,wait=off,id=apodman-machine-default_ready"].
Proof.
  pose proof (chardev_ignores_ID_and_Server (H := Sample.symlink_or_path)
                Sample.ready_box Sample.ready_other eq_refl eq_refl)
    as [Heq Hfrag].
  split; [discriminate|]. split; [discriminate|].
  split; [exact Heq|]. rewrite <- Heq, Hfrag. reflexivity.
Defined.

End QemuFacts.

(** ** Nil-able maps *)

Module GoFacts.



Section Maps.
Context {V : Type}.
Implicit Types (m : option (gmap string V)) (k : string).

Lemma map_get_keys m k : is_Some (Go.map_get m k) ↔ k ∈ Go.map_keys m.
Proof.
  destruct m as [g|]; simpl.
  - by rewrite elem_of_dom.
  - split; [by intros [? ?] | by rewrite elem_of_empty].
Qed.

Lemma map_get_None_keys m k : Go.map_get m k = None ↔ k ∉ Go.map_keys m.
Proof. rewrite <- map_get_keys, eq_None_not_Some. done. Qed.

Lemma map_keys_delete m k :
  Go.map_keys (Go.map_delete m k) = Go.map_keys m ∖ {[ k ]}.
Proof.
  destruct m as [g|]; simpl; [apply dom_delete_L | by rewrite empty_difference_L].
Qed.

Lemma map_range_first_Some `{Go.RangeOrder} m k :
  Go.map_range_first m = Some k → k ∈ Go.map_keys m.
Proof.
  destruct m as [g|]; simpl; [|done].
  intros Hk. apply elem_of_dom. by eapply Go.range_first_Some.
Qed.

Lemma map_range_first_None `{Go.RangeOrder} m :
  Go.map_range_first m = None → Go.map_keys m = ∅.
Proof.
  destruct m as [g|]; simpl; [|done].
  intros Hk. apply Go.range_first_None in Hk. subst g. apply dom_empty_L.
Qed.

End Maps.
End GoFacts.

(** ** The registry in containers.conf *)

Module MachineFacts.
Import Machine Registry.

Section WithOrder.
Context `{Go.RangeOrder}.

(** One turn of the removal loop: the name was there and is gone, and
    the default either was that name and has been chosen anew, or was
    another name and stays. *)
Lemma remove_one_spec (name : string) (cfg cfg' : Config) :
  remove_one name cfg = inl cfg' →
  name ∈ Go.map_keys (ServiceDestinations (Engine cfg))
  ∧ ServiceDestinations (Engine cfg')
    = Go.map_delete (ServiceDestinations (Engine cfg)) name
  ∧ ((ActiveService (Engine cfg) = name
      ∧ default_after_removal (ActiveService (Engine cfg'))
          (ServiceDestinations (Engine cfg')))
     ∨ (ActiveService (Engine cfg) ≠ name
        ∧ ActiveService (Engine cfg') = ActiveService (Engine cfg))).
Proof.
  unfold remove_one.
  destruct (Go.map_get (ServiceDestinations (Engine cfg)) name) as [d|] eqn:Hget;
    [|done].
  assert (Hin : name ∈ Go.map_keys (ServiceDestinations (Engine cfg)))
    by (apply GoFacts.map_get_keys; eauto).
  cbn [Engine ActiveService ServiceDestinations].
  destruct (String.eqb_spec (ActiveService (Engine cfg)) name) as [Heq|Hne].
  - destruct (Go.map_range_first
                (Go.map_delete (ServiceDestinations (Engine cfg)) name))
      as [service|] eqn:Hfirst; intros [= <-]; simpl;
      (split; [done|]); (split; [done|]); left; (split; [done|]).
    + apply GoFacts.map_range_first_Some in Hfirst.
      split; [done|]. intros Hempty. rewrite Hempty in Hfirst.
      by apply elem_of_empty in Hfirst.
    + apply GoFacts.map_range_first_None in Hfirst. by split.
  - intros [= <-]; simpl. split; [done|]. split; [done|]. by right.
Qed.







(** A call that reports no error has read the file, run the loop to its
    end and written what the loop left. *)
Lemma RemoveConnections_ok (names : list string) (st st' : Store Config) :
  RemoveConnections names st = (st', None) →
  remove_loop names (stored st) = inl (stored st').
Proof.
  unfold RemoveConnections, ReadCustomConfig, Write, store_read, store_write.
  destruct (read_err st); [done|].
  destruct (remove_loop names (stored st)) as [cfg|err]; [|done].
  destruct (write_err st); [done|]. by intros [= <-].
Qed.

End WithOrder.
End MachineFacts.

(** ** The registry in the connections file *)

Module ConnectionFacts.
Import Connection Registry.


Section WithOrder.
Context `{Go.RangeOrder}.


End WithOrder.

(** An edit that reports no error has written what its callback left. *)
Lemma EditConnectionConfig_ok {A}
    (callback : ConnectionsFile → ConnectionsFile * A * option error)
    (a0 a : A) (st st' : Store ConnectionsFile) :
  EditConnectionConfig callback a0 st = (st', a, None) →
  callback (stored st) = (stored st', a, None)
  ∧ read_err st' = None ∧ write_err st' = None.
Proof.
  unfold EditConnectionConfig, store_read, store_write.
  destruct (read_err st) eqn:Hr; [done|].
  destruct (callback (stored st)) as [[cfg a1] [err|]]; [done|].
  destruct (write_err st) eqn:Hw; [done|]. by intros [= <- <-].
Qed.

Lemma EditConnectionConfig_run {A}
    (callback : ConnectionsFile → ConnectionsFile * A * option error)
    (a0 a : A) (cfg' : ConnectionsFile) (st : Store ConnectionsFile) :
  read_err st = None → write_err st = None →
  callback (stored st) = (cfg', a, None) →
  EditConnectionConfig callback a0 st = (mkStore cfg' None None, a, None).
Proof.
  intros Hr Hw Hcb.
  unfold EditConnectionConfig, store_read, store_write.
  by rewrite Hr, Hcb, Hw.
Qed.

(** [UpdateConnectionIfDefault] on a readable, writable file. *)
Lemma UpdateConnectionIfDefault_run (rootful : bool)
    (name rootfulName : string) (st : Store ConnectionsFile) :
  read_err st = None → write_err st = None →
  ∃ default,
    UpdateConnectionIfDefault rootful name rootfulName st
      = (mkStore (mkFile (mkConnection default
                            (Connections (Connection (stored st)))))
           None None, None)
    ∧ default =
        if String.eqb name (Default (Connection (stored st))) && rootful
        then rootfulName
        else if String.eqb rootfulName (Default (Connection (stored st)))
                && negb rootful
        then name
        else Default (Connection (stored st)).
Proof.
  intros Hr Hw. eexists. split; [|reflexivity].
  unfold UpdateConnectionIfDefault.
  erewrite EditConnectionConfig_run; [| done | done | reflexivity].
  destruct st as [[[default entries]] r w]; simpl in *.
  destruct (String.eqb name default && rootful); [done|].
  destruct (String.eqb rootfulName default && negb rootful); done.
Qed.

End ConnectionFacts.

(** ** Removal and the default *)

Module RemovalFacts.
Import Registry.










End RemovalFacts.

(** ** Adding to a registry without entries *)

Module AddFacts.

(** Past the first entry, on a mapping that exists, the loop of
    [addConnection] leaves the default alone. *)
Lemma add_loop_later (identity : string) (isDefault : bool)
    (conns : list Connection.connection) (i : nat)
    (cfg cfg' : Connection.ConnectionsFile) :
  i ≠ 0%nat →
  is_Some (Connection.Connections (Connection.Connection cfg)) →
  Connection.add_loop identity isDefault i conns cfg = (cfg', (), None) →
  Connection.Default (Connection.Connection cfg')
    = Connection.Default (Connection.Connection cfg).
Proof.
  revert i cfg. induction conns as [|con conns IH]; intros i cfg Hi Hmap;
    cbn [Connection.add_loop].
  - by intros [= <-].
  - destruct (Go.map_get _ _); [done|].
    destruct i as [|i]; [done|]. rewrite andb_false_r.
    destruct Hmap as [g Hg]. rewrite Hg.
    intros Hloop. apply IH in Hloop; [done|lia|by eexists].
Qed.

(** The first-entry rule where the code applies it: on a mapping that is
    nil, whatever [isDefault] says, the first entry added is the default
    when the call reports no error. *)
Lemma first_entry_default_on_nil (con : Connection.connection)
    (conns : list Connection.connection) (identity : string)
    (isDefault : bool) (st st' : Store Connection.ConnectionsFile) :
  Connection.Connections (Connection.Connection (stored st)) = None →
  Connection.addConnection (con :: conns) identity isDefault st
    = (st', None) →
  Connection.Default (Connection.Connection (stored st'))
    = Connection.name con.
Proof.
  intros Hnil. unfold Connection.addConnection.
  destruct (_ <? _)%nat; [done|].
  destruct (Connection.EditConnectionConfig _ _ st)
    as [[st1 []] err] eqn:Hedit.
  intros [= -> ->].
  apply ConnectionFacts.EditConnectionConfig_ok in Hedit as (Hcb & _).
  revert Hcb. cbn [Connection.add_loop]. unfold Go.map_get. rewrite Hnil.
  destruct (isDefault && _); cbn [Connection.Connection Connection.Connections];
    rewrite ?Hnil; intros Hloop;
    apply add_loop_later in Hloop; try done; by eexists.
Qed.

Lemma first_service_default_on_nil (uri name identity : string)
    (isDefault : bool) (st st' : Store Machine.Config) :
  Machine.ServiceDestinations (Machine.Engine (stored st)) = None →
  Machine.AddConnection uri name identity isDefault st = (st', None) →
  Machine.ActiveService (Machine.Engine (stored st')) = name.
Proof.
  intros Hnil.
  unfold Machine.AddConnection, Machine.ReadCustomConfig, Machine.Write,
    store_read, store_write.
  destruct (_ <? _)%nat; [done|]. destruct (read_err st); [done|].
  unfold Go.map_get. rewrite Hnil.
  destruct isDefault; cbn [Machine.Engine Machine.ServiceDestinations];
    rewrite ?Hnil; destruct (write_err st); try done; by intros [= <-].
Qed.

(** C6 on the code.  A registry whose mapping exists and holds no entry
    (the connections file says [Connections: {}], containers.conf has
    an empty table of service destinations): adding [dev] with
    [makeDefault = false] succeeds, [dev] is in the mapping, and the
    default is still empty, in either registry.  On a nil mapping the
    same calls make [dev] the default. *)
Theorem add_to_empty_mapping_sets_no_default :
  let added := Connection.addConnection [Sample.dev] "/home/u/.ssh/box"
                 false Sample.connections_empty in
  let added' := Machine.AddConnection (Connection.uri Sample.dev) "dev"
                  "/home/u/.ssh/box" false Sample.engine_empty in
  let on_nil := Connection.addConnection [Sample.dev] "/home/u/.ssh/box"
                  false Sample.connections_nil in
  let on_nil' := Machine.AddConnection (Connection.uri Sample.dev) "dev"
                   "/home/u/.ssh/box" false Sample.engine_nil in
  (added.2 = None
   ∧ is_Some (Go.map_get (Connection.Connections
                            (Connection.Connection (stored added.1))) "dev")
   ∧ Connection.Default (Connection.Connection (stored added.1)) = "")
  ∧ (added'.2 = None
     ∧ is_Some (Go.map_get (Machine.ServiceDestinations
                              (Machine.Engine (stored added'.1))) "dev")
     ∧ Machine.ActiveService (Machine.Engine (stored added'.1)) = "")
  ∧ Connection.Default (Connection.Connection (stored on_nil.1)) = "dev"
  ∧ Machine.ActiveService (Machine.Engine (stored on_nil'.1)) = "dev".
Proof.
  intros added added' on_nil on_nil'.
  split; [|split; [|split]].
  - split; [vm_compute; reflexivity|].
    split; [vm_compute; eauto | vm_compute; reflexivity].
  - split; [vm_compute; reflexivity|].
    split; [vm_compute; eauto | vm_compute; reflexivity].
  - apply (first_entry_default_on_nil Sample.dev [] "/home/u/.ssh/box" false
             Sample.connections_nil); [reflexivity|].
    vm_compute; reflexivity.
  - apply (first_service_default_on_nil (Connection.uri Sample.dev) "dev"
             "/home/u/.ssh/box" false Sample.engine_nil); [reflexivity|].
    vm_compute; reflexivity.
Qed.

End AddFacts.

(** ** The applehv machine *)

Module MacMachineFacts.
Import AppleHV Persistence.

Section WithEnv.
Context `{MacMachine.Env}.

(** A write touches neither the registry nor the log, and one that
    reports no error has put the record in its file. *)
Lemma writeConfig_spec (m : MacMachine.t) (w w' : MacMachine.World)
    (err : option error) :
  MacMachine.writeConfig m w = (w', err) →
  MacMachine.registry w' = MacMachine.registry w
  ∧ MacMachine.logged w' = MacMachine.logged w
  ∧ (err = None → persisted m w').
Proof.
  unfold MacMachine.writeConfig, persisted, OS.WriteFile.
  destruct (MacMachine.MarshalIndent m) as [b|e].
  - destruct (Go.is_empty (Path (MacMachine.ConfigPath m)));
      [|destruct (bool_decide _);
        [|destruct (OS.torn (MacMachine.fs w) !! _)]];
      intros [= <- <-]; simpl; repeat split; try done.
    intros _. exists b. split; [done|]. apply lookup_insert_eq.
  - intros [= <- <-]. repeat split; done.
Qed.

Lemma after_cpus_memory_disk (opts : Machine.SetOptions) (m : MacMachine.t) :
  disk (after_cpus_memory opts m) = disk m.
Proof.
  unfold after_cpus_memory.
  by destruct (Machine.set_CPUs opts), (Machine.set_Memory opts).
Qed.

(** [Set] on a stopped machine with a disk size in the request: what is
    collected, and what the record and the world become. *)
Lemma Set_collect_disk (opts : Machine.SetOptions) (m : MacMachine.t)
    (w : MacMachine.World) (req : N) :
  MacMachine.State m w = inl Machine.Stopped →
  Machine.set_DiskSize opts = Some req →
  let m1 := after_cpus_memory opts m in
  let m2 := if (req <? disk m)%N then m1
            else MacMachine.with_DiskSize m1 req in
  let pre := if (req <? disk m)%N then [Some MacMachine.shrink_error]
             else [] in
  MacMachine.Set_collect opts m w
    = (m2, (MacMachine.writeConfig m2 w).1,
       inl (pre ++ [(MacMachine.writeConfig m2 w).2])).
Proof.
  intros Hst Hreq m1 m2 pre. unfold MacMachine.Set_collect.
  rewrite Hst, Hreq. cbn [bool_decide decide_rel].
  rewrite bool_decide_eq_false_2 by (by intros ?).
  fold (after_cpus_memory opts m). fold m1.
  change (Machine.DiskSize (MacMachine.ResourceConfig m1)) with (disk m1).
  subst m1 m2 pre. rewrite after_cpus_memory_disk.
  destruct (req <? disk m)%N;
    by destruct (MacMachine.writeConfig _ w).
Qed.

(** C1.  [Start] on a machine whose state is [Running] fails with
    [ErrVMAlreadyRunning]; the record and the world (files, registry,
    log, and with them the state the hypervisor reports) are as they
    were. *)
Theorem Start_while_running (name : string) (opts : Machine.StartOptions)
    (m : MacMachine.t) (w : MacMachine.World) :
  MacMachine.State m w = inl Machine.Running →
  MacMachine.Start name opts m w = (m, w, Some ErrVMAlreadyRunning)
  ∧ MacMachine.State (MacMachine.Start name opts m w).1.1
      (MacMachine.Start name opts m w).1.2 = inl Machine.Running.
Proof.
  intros Hst.
  assert (Hstart : MacMachine.Start name opts m w
                   = (m, w, Some ErrVMAlreadyRunning)).
  { unfold MacMachine.Start. rewrite Hst. by rewrite bool_decide_eq_true_2. }
  split; [exact Hstart|]. by rewrite Hstart.
Qed.

(** C2, as amended.  [Set] on a stopped machine with a requested disk
    size: a size below the current one leaves [DiskSize] as it is and
    comes back with the shrink error in the returned list; any other
    size is assigned to the record.  Either way the record is then
    written to its configuration file, and the result of that write is
    the primary error: when it is nil the file holds the record. *)
Theorem Set_disk_size (name : string) (opts : Machine.SetOptions)
    (m : MacMachine.t) (w : MacMachine.World) (req : N) :
  MacMachine.State m w = inl Machine.Stopped →
  Machine.set_DiskSize opts = Some req →
  let r := MacMachine.Set_ name opts m w in
  ((req < disk m)%N →
     disk r.1.1 = disk m ∧ r.2.1 = [Some MacMachine.shrink_error])
  ∧ ((disk m ≤ req)%N → disk r.1.1 = req ∧ r.2.1 = [])
  ∧ MacMachine.writeConfig r.1.1 w = (r.1.2, r.2.2)
  ∧ (r.2.2 = None → persisted r.1.1 r.1.2).
Proof.
  intros Hst Hreq r. subst r. unfold MacMachine.Set_.
  rewrite (Set_collect_disk opts m w req Hst Hreq).
  set (m1 := after_cpus_memory opts m).
  assert (Hm1 : disk m1 = disk m) by apply after_cpus_memory_disk.
  destruct (N.ltb_spec req (disk m)) as [Hlt|Hge];
    destruct (MacMachine.writeConfig _ w) as [w' err] eqn:Hw;
    cbn [fst snd app MacMachine.Set_return length];
    destruct (writeConfig_spec _ _ _ _ Hw) as (_ & _ & Hok).
  - split; [intros _; by split|]. split; [intros Hle; lia|].
    split; [done|]. exact Hok.
  - split; [intros Hlt; lia|]. split; [intros _; split; [|done]|].
    { unfold disk, MacMachine.with_DiskSize. reflexivity. }
    split; [done|]. exact Hok.
Qed.

(** C3.  [Remove] without [Force] on a machine whose state is [Running]
    fails with the invalid-state error naming the machine; no function
    that would delete anything is handed back, and the world (the
    configuration file, image, keys and registry entries with it) is as
    it was. *)
Theorem Remove_running_without_force `{Go.RangeOrder} `{VMFileOps}
    (name : string) (opts : Machine.RemoveOptions) (m : MacMachine.t)
    (w : MacMachine.World) :
  MacMachine.State m w = inl Machine.Running →
  Machine.Force opts = false →
  MacMachine.Remove name opts m w
    = (w, ("", None,
           Some (Errorf "invalid state: %s is running" [MacMachine.Name m]))).
Proof.
  unfold MacMachine.State, MacMachine.Remove. intros Hst Hforce.
  destruct (MacMachine.vfkit_state (MacMachine.VfkitHelper m) w)
    as [st|err]; [|done].
  injection Hst as ->. by rewrite Hforce.
Qed.

(** C8.  When [Set] has collected two or more results (errors of
    validation, then the result of the write), it returns all of them but
    the last as its list, and the last one alone as its primary error. *)
Theorem Set_returns_all_but_last (name : string) (opts : Machine.SetOptions)
    (m m' : MacMachine.t) (w w' : MacMachine.World)
    (collected : list (option error)) :
  MacMachine.Set_collect opts m w = (m', w', inl collected) →
  (2 ≤ length collected)%nat →
  ∃ init lastErr,
    collected = init ++ [lastErr]
    ∧ MacMachine.Set_ name opts m w = (m', w', (init, lastErr)).
Proof.
  intros Hcollect Hlen. unfold MacMachine.Set_. rewrite Hcollect.
  destruct collected as [|e collected _] using rev_ind; [simpl in Hlen; lia|].
  exists collected, e. split; [done|].
  unfold MacMachine.Set_return. rewrite length_app in *. simpl in *.
  destruct (length collected) as [|n] eqn:Hn; [lia|].
  replace (S n + 1)%nat with (S (S n)) by lia.
  replace (S (S n) - 1)%nat with (length collected) by lia.
  rewrite take_app_length, list_lookup_total_middle; done.
Qed.

End WithEnv.

Lemma Start_while_running_witness :
  MacMachine.State (H := Sample.env (inl Machine.Running))
    Sample.box Sample.world = inl Machine.Running
  ∧ MacMachine.Start (H := Sample.env (inl Machine.Running)) "box"
      Machine.mkStartOptions Sample.box Sample.world
    = (Sample.box, Sample.world, Some ErrVMAlreadyRunning).
Proof.
  split; [reflexivity|].
  exact (proj1 (Start_while_running (H := Sample.env (inl Machine.Running))
                  "box" Machine.mkStartOptions Sample.box Sample.world
                  eq_refl)).
Defined.

(** On a writable file the larger size is in the record and in the
    file; a smaller size changes neither and comes back as an error. *)
Lemma Set_disk_size_witness :
  let stopped := Sample.env (inl Machine.Stopped) in
  let r := MacMachine.Set_ (H := stopped) "box" Sample.grow_to_40
             Sample.box Sample.world in
  let r' := MacMachine.Set_ (H := stopped) "box" Sample.shrink_to_10
              Sample.box Sample.world in
  MacMachine.State (H := stopped) Sample.box Sample.world
    = inl Machine.Stopped
  ∧ (disk Sample.box ≤ 40)%N
  ∧ (disk r.1.1 = 40%N ∧ r.2 = ([], None)
     ∧ persisted (H := stopped) r.1.1 r.1.2
     ∧ OS.files (MacMachine.fs r.1.2) !! "/conf/applehv/box.json"
       = Some "box cpus=4 disk=40 memory=2048")
  ∧ (10 < disk Sample.box)%N
  ∧ (disk r'.1.1 = 20%N
     ∧ r'.2 = ([Some MacMachine.shrink_error], None)
     ∧ persisted (H := stopped) r'.1.1 r'.1.2).
Proof.
  intros stopped r r'.
  pose proof (Set_disk_size (H := stopped) "box" Sample.grow_to_40
                Sample.box Sample.world 40%N eq_refl eq_refl)
    as (_ & Hgrow & _ & Hkept).
  pose proof (Set_disk_size (H := stopped) "box" Sample.shrink_to_10
                Sample.box Sample.world 10%N eq_refl eq_refl)
    as (Hshrink & _ & _ & Hkept').
  assert (Hle : (disk Sample.box ≤ 40)%N) by (vm_compute; discriminate).
  assert (Hlt : (10 < disk Sample.box)%N) by reflexivity.
  split; [reflexivity|]. split; [exact Hle|]. split; [|split; [exact Hlt|]].
  - split; [exact (proj1 (Hgrow Hle))|]. split; [vm_compute; reflexivity|].
    split; [exact (Hkept eq_refl) | vm_compute; reflexivity].
  - split; [exact (proj1 (Hshrink Hlt))|]. split; [vm_compute; reflexivity|].
    exact (Hkept' eq_refl).
Defined.

(** C2, as stated, fails when the write fails: the configuration file
    is write-protected, the machine is stopped, 40 is asked for where 20
    is current; the record in memory has 40, the write is refused and
    returned as the primary error, and the file still holds the record
    with 20. *)
Lemma disk_growth_not_persisted :
  let stopped := Sample.env (inl Machine.Stopped) in
  let r := MacMachine.Set_ (H := stopped) "box" Sample.grow_to_40
             Sample.box Sample.world_readonly in
  disk r.1.1 = 40%N
  ∧ r.2 = ([], Some (PathError "open" "/conf/applehv/box.json" EACCES))
  ∧ OS.files (MacMachine.fs r.1.2) !! "/conf/applehv/box.json"
    = Some "box cpus=2 disk=20 memory=2048"
  ∧ ¬ disk_request_as_claimed (H := stopped) "box" Sample.grow_to_40
        Sample.box Sample.world_readonly.
Proof.
  intros stopped r.
  split; [reflexivity|]. split; [vm_compute; reflexivity|].
  split; [vm_compute; reflexivity|].
  intros Hclaim.
  destruct (Hclaim eq_refl 40%N eq_refl) as [_ Hge].
  destruct Hge as [_ (b & Hb & Hfile)]; [vm_compute; discriminate|].
  vm_compute in Hb. injection Hb as <-.
  vm_compute in Hfile. discriminate Hfile.
Qed.

(** A write that fails need not leave the file as it was: the device
    has room for three bytes, the write gives up after them, and the
    configuration file holds those three bytes where it held the record
    with 20. *)
Example failed_write_may_truncate :
  let stopped := Sample.env (inl Machine.Stopped) in
  let full :=
    MacMachine.mkWorld
      (OS.mkFS Sample.box_files ∅ {[ "/conf/applehv/box.json" := 3%nat ]})
      Sample.engine_conf [] in
  let r := MacMachine.Set_ (H := stopped) "box" Sample.grow_to_40
             Sample.box full in
  disk r.1.1 = 40%N
  ∧ r.2 = ([], Some (PathError "write" "/conf/applehv/box.json" ENOSPC))
  ∧ OS.files (MacMachine.fs r.1.2) !! "/conf/applehv/box.json" = Some "box".
Proof.
  intros stopped full r.
  split; [reflexivity|]. split; vm_compute; reflexivity.
Qed.

Lemma Remove_running_without_force_witness :
  let running := Sample.env (inl Machine.Running) in
  MacMachine.State (H := running) Sample.box Sample.world
    = inl Machine.Running
  ∧ Machine.Force Sample.keep_nothing = false
  ∧ MacMachine.Remove (H := running) (H0 := Sample.first_key)
      (H1 := Sample.symlink_or_path) "box" Sample.keep_nothing
      Sample.box Sample.world
    = (Sample.world,
       ("", None, Some (Errorf "invalid state: %s is running" ["box"]))).
Proof.
  intros running. split; [reflexivity|]. split; [reflexivity|].
  exact (Remove_running_without_force (H := running)
           (H0 := Sample.first_key) (H1 := Sample.symlink_or_path)
           "box" Sample.keep_nothing Sample.box Sample.world
           eq_refl eq_refl).
Defined.

(** The same call on the stopped machine hands back the function that
    deletes: run on the world, it leaves none of the five files and
    neither connection of [box], and logs nothing. *)
Example Remove_stopped_deletes :
  let stopped := Sample.env (inl Machine.Stopped) in
  let r := MacMachine.Remove (H := stopped) (H0 := Sample.first_key)
             (H1 := Sample.symlink_or_path) "box" Sample.keep_nothing
             Sample.box Sample.world in
  r.2.2 = None
  ∧ ∃ f, r.2.1.2 = Some f
         ∧ OS.files (MacMachine.fs (f r.1).1) = ∅
         ∧ Go.map_keys (Machine.ServiceDestinations
                          (Machine.Engine
                             (stored (MacMachine.registry (f r.1).1))))
           = {[ "remote" ]}
         ∧ Machine.ActiveService
             (Machine.Engine (stored (MacMachine.registry (f r.1).1)))
           = "remote"
         ∧ MacMachine.logged (f r.1).1 = [].
Proof.
  intros stopped r. split; [reflexivity|].
  eexists. split; [reflexivity|].
  split; [vm_compute; reflexivity|]. split; [vm_compute; reflexivity|].
  split; vm_compute; reflexivity.
Qed.

(** The shrink request collects two results, the shrink error and the
    nil result of the write: the first is the list, the second the
    primary error. *)
Lemma Set_returns_all_but_last_witness :
  let stopped := Sample.env (inl Machine.Stopped) in
  ∃ m' w',
    MacMachine.Set_collect (H := stopped) Sample.shrink_to_10
      Sample.box Sample.world
      = (m', w', inl [Some MacMachine.shrink_error; None])
    ∧ MacMachine.Set_ (H := stopped) "box" Sample.shrink_to_10
        Sample.box Sample.world
      = (m', w', ([Some MacMachine.shrink_error], None)).
Proof.
  intros stopped.
  eexists _, _.
  assert (Hc : MacMachine.Set_collect (H := stopped) Sample.shrink_to_10
                 Sample.box Sample.world
               = (Sample.box, Sample.world,
                  inl [Some MacMachine.shrink_error; None]))
    by (vm_compute; reflexivity).
  split; [exact Hc|].
  destruct (Set_returns_all_but_last (H := stopped) "box"
              Sample.shrink_to_10 Sample.box Sample.box Sample.world
              Sample.world _ Hc (le_n 2)) as (init & lastErr & Hsplit & Hset).
  rewrite Hset. f_equal. f_equal.
  - by destruct init as [|? [|? [|]]]; simplify_eq/=.
  - by destruct init as [|? [|? [|]]]; simplify_eq/=.
Defined.

End MacMachineFacts.

(** ** The registry in containers.conf: adding, removing, the default *)

Module RegistryLaws.
Import Machine Registry.

Lemma map_get_delete (m : option (gmap string Destination)) (name k : string) :
  Go.map_get (Go.map_delete m name) k
    = if decide (k = name) then None else Go.map_get m k.
Proof.
  destruct m as [g|]; simpl; [|by destruct (decide _)].
  destruct (decide (k = name)) as [->|Hne].
  - apply lookup_delete_eq.
  - by apply lookup_delete_ne.
Qed.

Lemma identity_given (identity : string) :
  (String.length identity <? 1)%nat = Go.is_empty identity.
Proof. by destruct identity. Qed.

(** X1.  [AddConnection] refuses an empty identity, and refuses a name
    that is already an entry: either way the error comes back and the
    file is what it was, so an existing connection is never replaced. *)
Theorem AddConnection_rejects (uri name identity : string) (isDefault : bool)
    (st : Store Config) :
  (identity = "" →
   AddConnection uri name identity isDefault st
     = (st, Some (ErrNew "identity must be defined")))
  ∧ (identity ≠ "" → read_err st = None →
     is_Some (Go.map_get (ServiceDestinations (Engine (stored st))) name) →
     AddConnection uri name identity isDefault st
       = (st, Some (ErrNew "cannot overwrite connection"))).
Proof.
  unfold AddConnection, ReadCustomConfig, store_read. split.
  - by intros ->.
  - intros Hid Hr [d Hd]. rewrite identity_given.
    destruct identity; [done|]. simpl. by rewrite Hr, Hd.
Qed.


(** X2.  An [AddConnection] that reports no error had an identity and a
    fresh name; afterwards the name maps to the destination made of the
    URI and the identity, marked as a machine's, every other name maps to
    what it did, and the default is the new name when [isDefault] was set
    or the mapping was nil, and else the old default. *)
Theorem AddConnection_adds (uri name identity : string) (isDefault : bool)
    (st st' : Store Config) :
  AddConnection uri name identity isDefault st = (st', None) →
  let before := Engine (stored st) in
  let after := Engine (stored st') in
  identity ≠ ""
  ∧ Go.map_get (ServiceDestinations before) name = None
  ∧ Go.map_get (ServiceDestinations after) name
    = Some (mkDestination uri identity true)
  ∧ (∀ k, k ≠ name →
       Go.map_get (ServiceDestinations after) k
         = Go.map_get (ServiceDestinations before) k)
  ∧ ActiveService after
    = match ServiceDestinations before with
      | None => name
      | Some _ => if isDefault then name else ActiveService before
      end.
Proof.
  unfold AddConnection, ReadCustomConfig, Write, store_read, store_write.
  rewrite identity_given.
  destruct identity as [|c identity]; [done|]. cbn [Go.is_empty].
  destruct (read_err st); [done|].
  destruct (Go.map_get (ServiceDestinations (Engine (stored st))) name)
    eqn:Hfresh; [done|].
  destruct (write_err st); [done|].
  destruct (stored st) as [[default entries]]. simpl in Hfresh |- *.
  destruct isDefault, entries as [g|]; intros [= <-]; simpl;
    (split; [done|]); (split; [done|]);
    (split; [by rewrite ?lookup_insert_eq, ?lookup_singleton_eq|]);
    (split; [|done]); intros k Hk;
    by rewrite ?lookup_insert_ne, ?lookup_singleton_ne.
Qed.

Section WithOrder.
Context `{Go.RangeOrder}.

Lemma remove_one_fails (name : string) (cfg : Config) :
  name ∉ Go.map_keys (ServiceDestinations (Engine cfg)) →
  remove_one name cfg
    = inr (Errorf "unable to find connection named %q" [name]).
Proof.
  intros Hout. apply GoFacts.map_get_None_keys in Hout.
  unfold remove_one. by rewrite Hout.
Qed.

Lemma remove_one_runs (name : string) (cfg : Config) :
  name ∈ Go.map_keys (ServiceDestinations (Engine cfg)) →
  ∃ cfg', remove_one name cfg = inl cfg'.
Proof.
  intros Hin. apply GoFacts.map_get_keys in Hin as [d Hd].
  unfold remove_one. rewrite Hd. cbn [Engine ActiveService ServiceDestinations].
  destruct (String.eqb _ _); [destruct (Go.map_range_first _)|]; eauto.
Qed.

Lemma remove_one_keys (name : string) (cfg cfg' : Config) :
  remove_one name cfg = inl cfg' →
  Go.map_keys (ServiceDestinations (Engine cfg'))
    = Go.map_keys (ServiceDestinations (Engine cfg)) ∖ {[ name ]}.
Proof.
  intros Hone. destruct (MachineFacts.remove_one_spec _ _ _ Hone) as (_ & -> & _).
  apply GoFacts.map_keys_delete.
Qed.

(** The loop runs to its end exactly on distinct names that are all
    entries. *)
Lemma remove_loop_runs_iff (names : list string) (cfg : Config) :
  (∃ cfg', remove_loop names cfg = inl cfg')
  ↔ NoDup names
    ∧ ∀ n, n ∈ names → n ∈ Go.map_keys (ServiceDestinations (Engine cfg)).
Proof.
  revert cfg. induction names as [|name names IH]; intros cfg;
    cbn [remove_loop].
  - split; [intros _|eauto]. split; [constructor|].
    intros n Hn. by apply elem_of_nil in Hn.
  - split.
    + intros [cfg' Hloop].
      destruct (remove_one name cfg) as [cfg1|err] eqn:Hone; [|done].
      destruct (MachineFacts.remove_one_spec _ _ _ Hone) as (Hin & _).
      pose proof (remove_one_keys _ _ _ Hone) as Hkeys.
      destruct (proj1 (IH cfg1)) as [Hnd Hall]; [eauto|].
      split.
      * constructor; [|done]. intros Hdup. apply Hall in Hdup.
        rewrite Hkeys in Hdup. apply elem_of_difference in Hdup as [_ Hdup].
        apply Hdup. by apply elem_of_singleton.
      * intros n [->|Hn]%elem_of_cons; [done|].
        apply Hall in Hn. rewrite Hkeys in Hn.
        by apply elem_of_difference in Hn as [Hn _].
    + intros [Hnd Hall]. apply NoDup_cons in Hnd as [Hfresh Hnd].
      destruct (remove_one_runs name cfg) as [cfg1 Hone];
        [apply Hall; left|].
      rewrite Hone. apply IH. split; [done|].
      intros n Hn. rewrite (remove_one_keys _ _ _ Hone).
      apply elem_of_difference. split; [apply Hall; by right|].
      rewrite elem_of_singleton. by intros ->.
Qed.

(** What the loop leaves: the names are gone, the other entries are what
    they were, and a default that was not named is still the default. *)
Lemma remove_loop_frame (names : list string) (cfg cfg' : Config) :
  remove_loop names cfg = inl cfg' →
  (∀ k, Go.map_get (ServiceDestinations (Engine cfg')) k
        = if decide (k ∈ names) then None
          else Go.map_get (ServiceDestinations (Engine cfg)) k)
  ∧ (ActiveService (Engine cfg) ∉ names →
     ActiveService (Engine cfg') = ActiveService (Engine cfg)).
Proof.
  revert cfg. induction names as [|name names IH]; intros cfg;
    cbn [remove_loop].
  - intros [= <-]. split; [|done]. intros k.
    destruct (decide (k ∈ [])) as [Hk|]; [by apply elem_of_nil in Hk|done].
  - destruct (remove_one name cfg) as [cfg1|err] eqn:Hone; [|done].
    intros Hloop. destruct (IH _ Hloop) as [Hget Hdef].
    destruct (MachineFacts.remove_one_spec _ _ _ Hone) as (_ & Hmap & Hcase).
    split.
    + intros k. rewrite Hget, Hmap, map_get_delete.
      destruct (decide (k ∈ names)) as [Hk|Hk].
      * rewrite decide_True; [done|by right].
      * destruct (decide (k = name)) as [->|Hne].
        -- rewrite decide_True; [done|by left].
        -- rewrite decide_False; [done|].
           by intros [?|?]%elem_of_cons.
    + intros Hout.
      assert (Hne : ActiveService (Engine cfg) ≠ name)
        by (intros Heq; apply Hout; rewrite Heq; left).
      destruct Hcase as [[Heq _]|[_ Hsame]]; [done|].
      rewrite Hdef, Hsame; [done|]. rewrite Hsame.
      intros Hin. apply Hout. by right.
Qed.

(** X3.  On a file that can be read and written, [RemoveConnections]
    reports no error exactly when the names are distinct and each of them
    is an entry: a name that is missing, or given twice, makes the call
    fail. *)
Theorem RemoveConnections_succeeds_iff (names : list string)
    (st : Store Config) :
  read_err st = None → write_err st = None →
  ((∃ st', RemoveConnections names st = (st', None))
   ↔ NoDup names
     ∧ ∀ n, n ∈ names →
            n ∈ Go.map_keys (ServiceDestinations (Engine (stored st)))).
Proof.
  intros Hr Hw. rewrite <- remove_loop_runs_iff.
  unfold RemoveConnections, ReadCustomConfig, Write, store_read, store_write.
  rewrite Hr. split.
  - intros [st' Hrm].
    destruct (remove_loop names (stored st)) as [cfg'|err]; [eauto|done].
  - intros [cfg' ->]. rewrite Hw. eauto.
Qed.

(** X4.  [RemoveConnections] is all or nothing on the file.  When it
    reports an error the file is what it was, also when the failing name
    came after names already deleted in memory.  When it reports none,
    the names given are no entries any more, every other name maps to what
    it did, and a default that was not among the names is still the
    default. *)
Theorem RemoveConnections_all_or_nothing (names : list string)
    (st st' : Store Config) (err : option error) :
  RemoveConnections names st = (st', err) →
  (err ≠ None → st' = st)
  ∧ (err = None →
     let before := Engine (stored st) in
     let after := Engine (stored st') in
     (∀ k, Go.map_get (ServiceDestinations after) k
           = if decide (k ∈ names) then None
             else Go.map_get (ServiceDestinations before) k)
     ∧ (ActiveService before ∉ names →
        ActiveService after = ActiveService before)).
Proof.
  intros Hrm. split.
  - revert Hrm.
    unfold RemoveConnections, ReadCustomConfig, Write, store_read, store_write.
    destruct (read_err st); [by intros [= <- <-]|].
    destruct (remove_loop names (stored st)); [|by intros [= <- <-]].
    destruct (write_err st); by intros [= <- <-].
  - intros ->. apply MachineFacts.RemoveConnections_ok in Hrm.
    by apply remove_loop_frame.
Qed.


End WithOrder.

(** X6.  [ChangeDefault] takes any name: on a file that can be read and
    written it reports no error, leaves the entries alone and makes the
    name the default, whether or not it is an entry; from then on
    [AnyConnectionDefault] answers true exactly for lists that hold the
    name. *)
Theorem ChangeDefault_any_name (name : string) (st : Store Config) :
  read_err st = None → write_err st = None →
  ∃ st',
    ChangeDefault name st = (st', None)
    ∧ ServiceDestinations (Engine (stored st'))
      = ServiceDestinations (Engine (stored st))
    ∧ ActiveService (Engine (stored st')) = name
    ∧ (∀ names, AnyConnectionDefault names st'
                = (bool_decide (name ∈ names), None))
    ∧ (name ≠ "" →
       name ∉ Go.map_keys (ServiceDestinations (Engine (stored st))) →
       ¬ default_valid (ActiveService (Engine (stored st')))
           (ServiceDestinations (Engine (stored st')))).
Proof.
  intros Hr Hw.
  unfold ChangeDefault, AnyConnectionDefault, ReadCustomConfig, Write,
    store_read, store_write.
  rewrite Hr, Hw. eexists. split; [done|]. simpl.
  split; [done|]. split; [done|]. split.
  - intros names. f_equal.
    induction names as [|n names IH]; [done|]. simpl. rewrite IH.
    destruct (String.eqb_spec n name) as [->|Hne].
    + simpl. symmetry. apply bool_decide_eq_true_2. left.
    + simpl. apply bool_decide_ext. split; [by right|].
      by intros [?|?]%elem_of_cons.
  - intros Hset Hout Hvalid. by apply Hout, Hvalid.
Qed.

Lemma AddConnection_adds_witness :
  let r := AddConnection
             "ssh://core@localhost:2222/run/user/501/podman/podman.sock"
             "dev" "/home/u/.ssh/dev" false Sample.engine_conf in
  r.2 = None
  ∧ Go.map_get (ServiceDestinations (Engine (stored r.1))) "dev"
    = Some (mkDestination
              "ssh://core@localhost:2222/run/user/501/podman/podman.sock"
              "/home/u/.ssh/dev" true)
  ∧ Go.map_get (ServiceDestinations (Engine (stored r.1))) "remote"
    = Go.map_get (ServiceDestinations (Engine (stored Sample.engine_conf)))
        "remote"
  ∧ ActiveService (Engine (stored r.1)) = "box".
Proof.
  intros r.
  assert (Hr : AddConnection
                 "ssh://core@localhost:2222/run/user/501/podman/podman.sock"
                 "dev" "/home/u/.ssh/dev" false Sample.engine_conf
               = (r.1, None)) by (vm_compute; reflexivity).
  destruct (AddConnection_adds _ _ _ _ _ _ Hr) as (_ & _ & Hnew & Hold & Hdef).
  split; [vm_compute; reflexivity|]. split; [exact Hnew|].
  split; [apply Hold; discriminate|]. exact Hdef.
Defined.

Lemma RemoveConnections_succeeds_iff_witness :
  read_err Sample.engine_conf = None
  ∧ write_err Sample.engine_conf = None
  ∧ (∃ st', RemoveConnections (H := Sample.first_key) ["box"; "box-root"]
              Sample.engine_conf = (st', None))
  ∧ ¬ (∃ st', RemoveConnections (H := Sample.first_key) ["box"; "box"]
                Sample.engine_conf = (st', None))
  ∧ ¬ (∃ st', RemoveConnections (H := Sample.first_key) ["box"; "gone"]
                Sample.engine_conf = (st', None)).
Proof.
  split; [reflexivity|]. split; [reflexivity|].
  split; [|split].
  - apply (RemoveConnections_succeeds_iff (H := Sample.first_key)
             ["box"; "box-root"] Sample.engine_conf eq_refl eq_refl).
    split.
    + apply NoDup_cons. split; [|apply NoDup_singleton].
      intros Hin%list_elem_of_singleton. discriminate.
    + intros n Hn. apply GoFacts.map_get_keys.
      apply elem_of_cons in Hn as [->|Hn%list_elem_of_singleton];
        [|subst n]; vm_compute; eauto.
  - intros Hex.
    apply (RemoveConnections_succeeds_iff (H := Sample.first_key)
             ["box"; "box"] Sample.engine_conf eq_refl eq_refl) in Hex
      as [Hnd _].
    apply NoDup_cons in Hnd as [Hfresh _]. apply Hfresh. left.
  - intros Hex.
    apply (RemoveConnections_succeeds_iff (H := Sample.first_key)
             ["box"; "gone"] Sample.engine_conf eq_refl eq_refl) in Hex
      as [_ Hall].
    assert (Hin : "gone" ∈ Go.map_keys
                     (ServiceDestinations (Engine (stored Sample.engine_conf))))
      by (apply Hall; right; left).
    apply GoFacts.map_get_keys in Hin as [d Hd]. vm_compute in Hd.
    discriminate.
Defined.

Lemma RemoveConnections_all_or_nothing_witness :
  let r := RemoveConnections (H := Sample.first_key) ["remote"; "gone"]
             Sample.engine_conf in
  r.2 ≠ None ∧ r.1 = Sample.engine_conf.
Proof.
  intros r.
  assert (Hr : RemoveConnections (H := Sample.first_key) ["remote"; "gone"]
                 Sample.engine_conf = (r.1, r.2)) by apply surjective_pairing.
  destruct (RemoveConnections_all_or_nothing (H := Sample.first_key)
              _ _ _ _ Hr) as [Hfail _].
  assert (Hne : r.2 ≠ None) by (vm_compute; discriminate).
  split; [exact Hne|]. exact (Hfail Hne).
Defined.


Lemma ChangeDefault_any_name_witness :
  read_err Sample.engine_conf = None
  ∧ write_err Sample.engine_conf = None
  ∧ ∃ st',
      ChangeDefault "gone" Sample.engine_conf = (st', None)
      ∧ ActiveService (Engine (stored st')) = "gone"
      ∧ AnyConnectionDefault ["box"; "box-root"] st' = (false, None)
      ∧ ¬ default_valid (ActiveService (Engine (stored st')))
            (ServiceDestinations (Engine (stored st'))).
Proof.
  split; [reflexivity|]. split; [reflexivity|].
  destruct (ChangeDefault_any_name "gone" Sample.engine_conf eq_refl eq_refl)
    as (st' & Hrun & _ & Hdef & Hany & Hinvalid).
  exists st'. split; [exact Hrun|]. split; [exact Hdef|].
  split; [rewrite Hany; vm_compute; reflexivity|].
  apply Hinvalid; [discriminate|].
  apply GoFacts.map_get_None_keys. vm_compute. reflexivity.
Defined.

End RegistryLaws.

(** ** The registry in the connections file: adding, the rootful twin *)

Module ConnectionLaws.
Import Connection.

(** The mapping after one assignment [Connections[name] = dst], made on
    the nil map or on an existing one. *)
Lemma add_loop_spec (identity : string) (isDefault : bool)
    (conns : list connection) (i : nat) (cfg cfg' : ConnectionsFile) :
  add_loop identity isDefault i conns cfg = (cfg', (), None) →
  NoDup (name <$> conns)
  ∧ (∀ c, c ∈ conns →
       Go.map_get (Connections (Connection cfg)) (name c) = None
       ∧ Go.map_get (Connections (Connection cfg')) (name c)
         = Some (mkDestination (uri c) identity true))
  ∧ (∀ k, k ∉ (name <$> conns) →
       Go.map_get (Connections (Connection cfg')) k
         = Go.map_get (Connections (Connection cfg)) k).
Proof.
  revert i cfg. induction conns as [|con conns IH]; intros i cfg;
    cbn [add_loop].
  - intros [= <-]. split; [constructor|]. split; [|done].
    intros c Hc. by apply elem_of_nil in Hc.
  - destruct (Go.map_get (Connections (Connection cfg)) (name con))
      eqn:Hfresh; [done|].
    match goal with
    | |- add_loop _ _ _ _ ?c1 = _ → _ => set (cfg1 := c1)
    end.
    assert (Hget1 : ∀ k, Go.map_get (Connections (Connection cfg1)) k
                         = if decide (k = name con)
                           then Some (mkDestination (uri con) identity true)
                           else Go.map_get (Connections (Connection cfg)) k).
    { intros k. subst cfg1.
      destruct (isDefault && _); cbn [Connection Connections];
        destruct (Connections (Connection cfg)) as [g|]; simpl;
        destruct (decide (k = name con)) as [->|Hne];
        by rewrite ?lookup_insert_eq, ?lookup_singleton_eq,
             ?lookup_insert_ne, ?lookup_singleton_ne. }
    clearbody cfg1. intros Hloop.
    destruct (IH _ _ Hloop) as (Hnd & Hin & Hout).
    assert (Hnew : name con ∉ (name <$> conns)).
    { intros (c & Heq & Hc)%list_elem_of_fmap.
      destruct (Hin c Hc) as [Hnone _]. rewrite Hget1, <- Heq in Hnone.
      by rewrite decide_True in Hnone. }
    split; [by constructor|]. split.
    + intros c [->|Hc]%elem_of_cons.
      * split; [done|]. rewrite (Hout _ Hnew), Hget1. by rewrite decide_True.
      * destruct (Hin c Hc) as [Hnone Hsome]. split; [|done].
        rewrite Hget1 in Hnone. by destruct (decide _).
    + intros k Hk. rewrite fmap_cons in Hk.
      apply not_elem_of_cons in Hk as [Hne Hk].
      rewrite (Hout _ Hk), Hget1. by rewrite decide_False.
Qed.

(** X7.  An [addConnection] that reports no error had an identity and
    distinct, fresh names; afterwards each of its connections is an entry
    with its URI, the identity and the machine mark, every other name maps
    to what it did, and the default is the first connection's name when
    [isDefault] was set or the mapping was nil, and else the old
    default. *)
Theorem addConnection_adds (conns : list connection) (identity : string)
    (isDefault : bool) (st st' : Store ConnectionsFile) :
  addConnection conns identity isDefault st = (st', None) →
  let before := Connection (stored st) in
  let after := Connection (stored st') in
  identity ≠ ""
  ∧ NoDup (name <$> conns)
  ∧ (∀ c, c ∈ conns →
       Go.map_get (Connections before) (name c) = None
       ∧ Go.map_get (Connections after) (name c)
         = Some (mkDestination (uri c) identity true))
  ∧ (∀ k, k ∉ (name <$> conns) →
       Go.map_get (Connections after) k = Go.map_get (Connections before) k)
  ∧ Default after
    = match conns, Connections before with
      | [], _ => Default before
      | c :: _, None => name c
      | c :: _, Some _ => if isDefault then name c else Default before
      end.
Proof.
  unfold addConnection.
  destruct identity as [|ch identity]; [done|]. cbn [String.length Nat.ltb Nat.leb].
  destruct (EditConnectionConfig _ _ st) as [[st1 []] err] eqn:Hedit.
  intros [= -> ->].
  apply ConnectionFacts.EditConnectionConfig_ok in Hedit as (Hcb & _).
  destruct (add_loop_spec _ _ _ _ _ _ Hcb) as (Hnd & Hin & Hout).
  split; [done|]. split; [done|]. split; [done|]. split; [done|].
  revert Hcb. destruct conns as [|c conns]; cbn [add_loop].
  - by intros [= <-].
  - destruct (Go.map_get _ _); [done|]. rewrite andb_true_r.
    destruct (Connections (Connection (stored st))) as [g|] eqn:Hmap.
    + destruct isDefault; cbn [Connection Connections Default andb];
        rewrite ?Hmap; intros Hloop;
        apply AddFacts.add_loop_later in Hloop; try done; by eexists.
    + destruct isDefault; cbn [Connection Connections Default andb];
        rewrite ?Hmap; intros Hloop;
        apply AddFacts.add_loop_later in Hloop; try done; by eexists.
Qed.

(** X8.  [UpdateConnectionIfDefault] on a file that can be read and
    written never touches the entries and moves the default only within
    the pair it is given: a default that is [name] or [rootfulName]
    becomes [rootfulName] for a rootful machine and [name] for a rootless
    one, any other default stays.  Done twice with the same arguments it
    changes nothing the second time. *)
Theorem UpdateConnectionIfDefault_within_pair (rootful : bool)
    (name rootfulName : string) (st : Store ConnectionsFile) :
  read_err st = None → write_err st = None →
  ∃ st',
    UpdateConnectionIfDefault rootful name rootfulName st = (st', None)
    ∧ Connections (Connection (stored st'))
      = Connections (Connection (stored st))
    ∧ Default (Connection (stored st'))
      = (if bool_decide (Default (Connection (stored st)) = name
                         ∨ Default (Connection (stored st)) = rootfulName)
         then if rootful then rootfulName else name
         else Default (Connection (stored st)))
    ∧ UpdateConnectionIfDefault rootful name rootfulName st' = (st', None).
Proof.
  intros Hr Hw.
  destruct (ConnectionFacts.UpdateConnectionIfDefault_run rootful name
              rootfulName st Hr Hw) as (default & Hrun & Hdef).
  eexists. split; [exact Hrun|]. cbn [stored Connection Connections Default].
  split; [done|].
  assert (Hform : default
                  = if bool_decide (Default (Connection (stored st)) = name
                                    ∨ Default (Connection (stored st)) = rootfulName)
                    then if rootful then rootfulName else name
                    else Default (Connection (stored st))).
  { rewrite Hdef.
    destruct (String.eqb_spec name (Default (Connection (stored st)))) as [Hn|Hn],
      (String.eqb_spec rootfulName (Default (Connection (stored st)))) as [Hrn|Hrn],
      rootful; simpl;
      try (rewrite bool_decide_eq_true_2 by (auto); congruence);
      try (rewrite bool_decide_eq_false_2 by (intros [?|?]; congruence); done). }
  split; [exact Hform|].
  destruct (ConnectionFacts.UpdateConnectionIfDefault_run rootful name
              rootfulName
              (mkStore (mkFile (mkConnection default
                                  (Connections (Connection (stored st)))))
                 None None) eq_refl eq_refl) as (default' & Hrun' & Hdef').
  rewrite Hrun'. cbn [stored Connection Connections Default] in *.
  repeat f_equal. rewrite Hdef'. clear Hrun Hrun' Hdef'.
  rewrite Hform.
  destruct (bool_decide _) eqn:Hpair.
  - destruct rootful; simpl.
    + rewrite andb_true_r, andb_false_r.
      by destruct (String.eqb_spec name rootfulName) as [->|].
    + rewrite andb_false_r, andb_true_r.
      by destruct (String.eqb rootfulName name).
  - apply bool_decide_eq_false_1 in Hpair.
    destruct (String.eqb_spec name (Default (Connection (stored st)))) as [Hn|Hn];
      [exfalso; apply Hpair; auto|].
    destruct (String.eqb_spec rootfulName (Default (Connection (stored st))))
      as [Hrn|Hrn]; [exfalso; apply Hpair; auto|]. done.
Qed.

Lemma addConnection_adds_witness :
  let r := addConnection [Sample.dev] "/home/u/.ssh/dev" false
             Sample.connections_four in
  r.2 = None
  ∧ Go.map_get (Connections (Connection (stored r.1))) "dev"
    = Some (mkDestination (uri Sample.dev) "/home/u/.ssh/dev" true)
  ∧ Default (Connection (stored r.1)) = "box".
Proof.
  intros r.
  assert (Hr : addConnection [Sample.dev] "/home/u/.ssh/dev" false
                 Sample.connections_four = (r.1, None))
    by (vm_compute; reflexivity).
  destruct (addConnection_adds _ _ _ _ _ Hr) as (_ & _ & Hnew & _ & Hdef).
  split; [vm_compute; reflexivity|].
  split; [exact (proj2 (Hnew Sample.dev ltac:(left)))|]. exact Hdef.
Defined.

Lemma UpdateConnectionIfDefault_within_pair_witness :
  read_err Sample.connections_four = None
  ∧ write_err Sample.connections_four = None
  ∧ ∃ st',
      UpdateConnectionIfDefault true "box" "box-root" Sample.connections_four
        = (st', None)
      ∧ Default (Connection (stored st')) = "box-root"
      ∧ UpdateConnectionIfDefault true "box" "box-root" st' = (st', None).
Proof.
  split; [reflexivity|]. split; [reflexivity|].
  destruct (UpdateConnectionIfDefault_within_pair true "box" "box-root"
              Sample.connections_four eq_refl eq_refl)
    as (st' & Hrun & _ & Hdef & Hagain).
  exists st'. split; [exact Hrun|]. split; [|exact Hagain].
  rewrite Hdef. vm_compute. reflexivity.
Defined.

End ConnectionLaws.

(** ** The applehv machine: what each operation does in each state *)

Module MacMachineLaws.
Import AppleHV MacMachineShape.

Section WithEnv.
Context `{MacMachine.Env}.

(** X9.  A machine that is starting: [Stop] and [Set] are refused with
    [ErrWrongState] and change nothing, but [Start] is not refused, it
    goes on to [startVfkit] as for a stopped machine, and [Remove] hands
    back its deleting function without asking for [Force] and without
    stopping the machine. *)
Theorem starting_machine `{Go.RangeOrder} `{VMFileOps} (name : string)
    (m : MacMachine.t) (w : MacMachine.World) :
  MacMachine.State m w = inl Machine.Starting →
  (∀ opts, MacMachine.Stop name opts m w = (w, Some ErrWrongState))
  ∧ (∀ opts, MacMachine.Set_ name opts m w = (m, w, ([], Some ErrWrongState)))
  ∧ (∀ opts, MacMachine.Start name opts m w
             = MacMachine.startVfkit (MacMachine.VfkitHelper m) m w)
  ∧ (∀ opts, ∃ msg,
       MacMachine.Remove name opts m w
         = (w, (msg, Some (MacMachine.Remove_func (removal_list opts m) m),
                None))).
Proof.
  intros Hst. split; [|split; [|split]]; intros opts.
  - unfold MacMachine.Stop. by rewrite Hst.
  - unfold MacMachine.Set_, MacMachine.Set_collect. by rewrite Hst.
  - unfold MacMachine.Start. by rewrite Hst.
  - revert Hst. unfold MacMachine.State, MacMachine.Remove, removal_list.
    destruct (MacMachine.vfkit_state _ w) as [st|]; [|done].
    intros [= ->]. cbn [bool_decide decide_rel].
    rewrite bool_decide_eq_false_2 by done.
    eexists. do 3 f_equal.
    destruct (Machine.SaveKeys opts), (Machine.SaveIgnition opts),
      (Machine.SaveImage opts); reflexivity.
Qed.

(** X10.  When the state of the machine cannot be had, [Start], [Stop],
    [Set] and [Remove] all give up with the error of the query, and
    nothing is changed, written or handed back. *)
Theorem state_query_error `{Go.RangeOrder} `{VMFileOps} (name : string)
    (m : MacMachine.t) (w : MacMachine.World) (err : error) :
  MacMachine.State m w = inr err →
  (∀ opts, MacMachine.Start name opts m w = (m, w, Some err))
  ∧ (∀ opts, MacMachine.Stop name opts m w = (w, Some err))
  ∧ (∀ opts, MacMachine.Set_ name opts m w = (m, w, ([], Some err)))
  ∧ (∀ opts, MacMachine.Remove name opts m w = (w, ("", None, Some err))).
Proof.
  intros Hst. split; [|split; [|split]]; intros opts.
  - unfold MacMachine.Start. by rewrite Hst.
  - unfold MacMachine.Stop. by rewrite Hst.
  - unfold MacMachine.Set_, MacMachine.Set_collect. by rewrite Hst.
  - revert Hst. unfold MacMachine.State, MacMachine.Remove.
    destruct (MacMachine.vfkit_state _ w); [done|]. by intros [= ->].
Qed.

Lemma Set_collect_stopped (opts : Machine.SetOptions) (m : MacMachine.t)
    (w : MacMachine.World) :
  MacMachine.State m w = inl Machine.Stopped →
  let m' := MacMachine.with_ResourceConfig m (resources_after opts m) in
  MacMachine.Set_collect opts m w
    = (m', (MacMachine.writeConfig m' w).1,
       inl ((if shrink_requested opts m then [Some MacMachine.shrink_error]
             else [])
            ++ [(MacMachine.writeConfig m' w).2])).
Proof.
  intros Hst m'. subst m'.
  unfold MacMachine.Set_collect, resources_after, disk_after, shrink_requested.
  rewrite Hst. rewrite bool_decide_eq_false_2 by (by intros ?).
  destruct m as [cp hu ic mo na [cpus disk mem] ssh sta cr lu vf].
  destruct opts as [[c|] [d|] [me|]]; cbn -[MacMachine.writeConfig N.ltb];
    try destruct (d <? disk)%N; cbn -[MacMachine.writeConfig];
    by destruct (MacMachine.writeConfig _ w).
Qed.

(** X11.  [Set] on a stopped machine, whatever is asked for: the CPUs
    and the memory asked for are assigned, the disk size too unless it is
    smaller than the current one, and nothing else of the record changes;
    the record is then written, and the result of the write is the primary
    error.  A refused shrink comes back alone in the list and keeps
    neither the other assignments nor the write from happening. *)
Theorem Set_on_stopped (name : string) (opts : Machine.SetOptions)
    (m : MacMachine.t) (w : MacMachine.World) :
  MacMachine.State m w = inl Machine.Stopped →
  let r := MacMachine.Set_ name opts m w in
  r.1.1 = MacMachine.with_ResourceConfig m (resources_after opts m)
  ∧ r.2.1 = (if shrink_requested opts m then [Some MacMachine.shrink_error]
             else [])
  ∧ MacMachine.writeConfig r.1.1 w = (r.1.2, r.2.2).
Proof.
  intros Hst r. subst r. unfold MacMachine.Set_.
  rewrite (Set_collect_stopped opts m w Hst).
  destruct (MacMachine.writeConfig _ w) as [w' err] eqn:Hw.
  by destruct (shrink_requested opts m).
Qed.

Lemma writeConfig_frame (m : MacMachine.t) (w : MacMachine.World) :
  let w' := (MacMachine.writeConfig m w).1 in
  MacMachine.registry w' = MacMachine.registry w
  ∧ MacMachine.logged w' = MacMachine.logged w
  ∧ OS.denied (MacMachine.fs w') = OS.denied (MacMachine.fs w)
  ∧ ∀ p, p ≠ Path (MacMachine.ConfigPath m) →
         OS.files (MacMachine.fs w') !! p = OS.files (MacMachine.fs w) !! p.
Proof.
  unfold MacMachine.writeConfig, OS.WriteFile.
  destruct (MacMachine.MarshalIndent m); [|done].
  destruct (Go.is_empty _); [done|]. destruct (bool_decide _); [done|].
  destruct (OS.torn (MacMachine.fs w) !! _); simpl;
    (repeat split; try done); intros p Hp; by rewrite lookup_insert_ne.
Qed.

(** X12.  Whatever the state and the request, [Set] touches one file at
    most, the machine's configuration file: every other file, the set of
    protected paths, the registry and the log are what they were, and of
    the record only the resources can differ. *)
Theorem Set_touches_config_only (name : string) (opts : Machine.SetOptions)
    (m : MacMachine.t) (w : MacMachine.World) :
  let r := MacMachine.Set_ name opts m w in
  MacMachine.with_ResourceConfig r.1.1 (MacMachine.ResourceConfig m) = m
  ∧ MacMachine.registry r.1.2 = MacMachine.registry w
  ∧ MacMachine.logged r.1.2 = MacMachine.logged w
  ∧ OS.denied (MacMachine.fs r.1.2) = OS.denied (MacMachine.fs w)
  ∧ ∀ p, p ≠ Path (MacMachine.ConfigPath m) →
         OS.files (MacMachine.fs r.1.2) !! p
           = OS.files (MacMachine.fs w) !! p.
Proof.
  intros r. subst r.
  assert (Hsame : MacMachine.with_ResourceConfig m (MacMachine.ResourceConfig m)
                  = m) by (by destruct m).
  destruct (MacMachine.State m w) as [st|err] eqn:Hst.
  - destruct (decide (st = Machine.Stopped)) as [->|Hne].
    + unfold MacMachine.Set_. rewrite (Set_collect_stopped opts m w Hst).
      destruct (writeConfig_frame
                  (MacMachine.with_ResourceConfig m (resources_after opts m)) w)
        as (Hreg & Hlog & Hden & Hfiles).
      destruct (MacMachine.Set_return _). cbn [fst snd].
      split; [by destruct m|]. done.
    + unfold MacMachine.Set_, MacMachine.Set_collect. rewrite Hst.
      rewrite bool_decide_eq_true_2 by done. done.
  - unfold MacMachine.Set_, MacMachine.Set_collect. rewrite Hst. done.
Qed.

End WithEnv.

Lemma if_bool_decide_ext {A : Type} (P Q : Prop) `{!Decision P, !Decision Q}
    (x y : A) :
  (P ↔ Q) →
  (if bool_decide P then x else y) = (if bool_decide Q then x else y).
Proof. intros HPQ. by rewrite (bool_decide_ext P Q HPQ). Qed.

(** One file of the list: it goes unless it is protected or not there. *)
Lemma remove_files_cons (p : string) (files : list string)
    (w : MacMachine.World) :
  MacMachine.remove_files (p :: files) w
  = MacMachine.remove_files files
      (match OS.Remove p (MacMachine.fs w) with
       | (fs', Some err) =>
           let w := MacMachine.mkWorld fs' (MacMachine.registry w)
                      (MacMachine.logged w) in
           if negb (OS.IsNotExist err) then MacMachine.log err w else w
       | (fs', None) =>
           MacMachine.mkWorld fs' (MacMachine.registry w) (MacMachine.logged w)
       end).
Proof. reflexivity. Qed.

(** X13.  The deletion loop of [Remove] is best effort: every listed
    file that is not protected is gone afterwards, whatever happened to
    the files listed before it; files not listed and protected files are
    untouched; each refusal is logged, a file that was not there is passed
    over without a word; the registry is not touched. *)
Theorem remove_files_best_effort (files : list string)
    (w : MacMachine.World) :
  let w' := MacMachine.remove_files files w in
  (∀ p, OS.files (MacMachine.fs w') !! p
        = if bool_decide (p ∈ files ∧ p ∉ OS.denied (MacMachine.fs w))
          then None else OS.files (MacMachine.fs w) !! p)
  ∧ OS.denied (MacMachine.fs w') = OS.denied (MacMachine.fs w)
  ∧ MacMachine.registry w' = MacMachine.registry w
  ∧ MacMachine.logged w'
    = MacMachine.logged w
      ++ ((fun p => PathError "remove" p EACCES)
            <$> refused files (MacMachine.fs w)).
Proof.
  revert w. induction files as [|f files IH]; intros w; cbv zeta.
  - cbn. split; [|by rewrite app_nil_r]. intros p.
    rewrite bool_decide_eq_false_2; [done|].
    intros [Hp _]. by apply elem_of_nil in Hp.
  - rewrite remove_files_cons. unfold OS.Remove.
    destruct (OS.files (MacMachine.fs w) !! f) as [data|] eqn:Hf;
      [destruct (bool_decide (f ∈ OS.denied (MacMachine.fs w))) eqn:Hd|].
    + (* there and protected: refused and logged *)
      apply bool_decide_eq_true_1 in Hd.
      cbn [negb OS.IsNotExist].
      destruct (IH (MacMachine.log (PathError "remove" f EACCES)
                      (MacMachine.mkWorld (MacMachine.fs w)
                         (MacMachine.registry w) (MacMachine.logged w))))
        as (Hfiles & Hden & Hreg & Hlog).
      cbn [MacMachine.log MacMachine.fs MacMachine.registry MacMachine.logged]
        in *.
      split; [|split; [done|split; [done|]]].
      * intros p. rewrite Hfiles. apply if_bool_decide_ext.
        split; [intros [? ?]; split; [by right|done]|].
        intros [[->|?]%elem_of_cons ?]; done.
      * rewrite Hlog, <- app_assoc. f_equal. unfold refused.
        rewrite filter_cons_True by (split; [eauto|done]). done.
    + (* there and not protected: gone *)
      apply bool_decide_eq_false_1 in Hd.
      destruct (IH (MacMachine.mkWorld
                      (OS.mkFS (delete f (OS.files (MacMachine.fs w)))
                         (OS.denied (MacMachine.fs w))
                         (OS.torn (MacMachine.fs w)))
                      (MacMachine.registry w) (MacMachine.logged w)))
        as (Hfiles & Hden & Hreg & Hlog).
      cbn [MacMachine.fs MacMachine.registry MacMachine.logged OS.files
             OS.denied] in *.
      split; [|split; [done|split; [done|]]].
      * intros p. rewrite Hfiles.
        destruct (decide (p = f)) as [->|Hne].
        -- rewrite lookup_delete_eq.
           rewrite (bool_decide_eq_true_2 (f ∈ f :: files ∧ _))
             by (split; [left|done]).
           by destruct (bool_decide _).
        -- rewrite lookup_delete_ne by done. apply if_bool_decide_ext.
           split; [intros [? ?]; split; [by right|done]|].
           intros [[?|?]%elem_of_cons ?]; done.
      * rewrite Hlog. f_equal. unfold refused.
        rewrite filter_cons_False by (intros [_ ?]; done).
        f_equal. apply list_filter_iff. intros p. cbn [OS.files OS.denied].
        split; intros [[x Hx] Hp]; (split; [|done]).
        -- apply lookup_delete_Some in Hx as [_ Hx]. eauto.
        -- exists x. apply lookup_delete_Some. split; [|done].
           intros ->. done.
    + (* not there: passed over *)
      cbn [negb OS.IsNotExist].
      destruct (IH (MacMachine.mkWorld (MacMachine.fs w)
                      (MacMachine.registry w) (MacMachine.logged w)))
        as (Hfiles & Hden & Hreg & Hlog).
      cbn [MacMachine.fs MacMachine.registry MacMachine.logged] in *.
      split; [|split; [done|split; [done|]]].
      * intros p. rewrite Hfiles.
        destruct (decide (p = f)) as [->|Hne].
        -- rewrite Hf. by repeat destruct (bool_decide _).
        -- apply if_bool_decide_ext.
           split; [intros [? ?]; split; [by right|done]|].
           intros [[?|?]%elem_of_cons ?]; done.
      * rewrite Hlog. f_equal. unfold refused.
        rewrite filter_cons_False; [done|].
        intros [[x Hx] _]. congruence.
Qed.

(** The deletion loop does not touch the registry. *)
Lemma remove_files_registry (files : list string) (w : MacMachine.World) :
  MacMachine.registry (MacMachine.remove_files files w)
  = MacMachine.registry w.
Proof.
  revert w. induction files as [|f files IH]; intros w; [done|].
  rewrite remove_files_cons, IH.
  destruct (OS.Remove f (MacMachine.fs w)) as [fs' [err|]]; [|done].
  by destruct (negb (OS.IsNotExist err)).
Qed.

Section WithOrder.
Context `{Go.RangeOrder}.

(** Dropping one connection of a registry that can be read and written:
    the name is no entry afterwards, whether it was one or not, and the
    other entries are what they were. *)
Lemma remove_connection_get (name : string) (w : MacMachine.World) :
  read_err (MacMachine.registry w) = None →
  write_err (MacMachine.registry w) = None →
  let w' := MacMachine.remove_connection name w in
  read_err (MacMachine.registry w') = None
  ∧ write_err (MacMachine.registry w') = None
  ∧ MacMachine.fs w' = MacMachine.fs w
  ∧ ∀ k, Go.map_get (Machine.ServiceDestinations
                       (Machine.Engine (stored (MacMachine.registry w')))) k
         = if decide (k = name) then None
           else Go.map_get (Machine.ServiceDestinations
                              (Machine.Engine (stored (MacMachine.registry w)))) k.
Proof.
  intros Hr Hw. cbv zeta.
  unfold MacMachine.remove_connection, Machine.RemoveConnections,
    Machine.ReadCustomConfig, Machine.Write, store_read, store_write.
  rewrite Hr. cbn [Machine.remove_loop].
  destruct (Machine.remove_one name (stored (MacMachine.registry w)))
    as [cfg1|err] eqn:Hone.
  - rewrite Hw. cbn. rewrite ?Hr, ?Hw.
    destruct (MachineFacts.remove_one_spec _ _ _ Hone) as (_ & -> & _).
    repeat (split; [done|]). intros k. apply RegistryLaws.map_get_delete.
  - cbn. repeat (split; [done|]). intros k.
    destruct (decide (k = name)) as [->|]; [|done].
    revert Hone. unfold Machine.remove_one.
    destruct (Go.map_get _ name); [|done].
    cbn. destruct (String.eqb _ _); [destruct (Go.map_range_first _)|]; done.
Qed.

(** X14.  The function [Remove] hands back never reports an error, and
    with a registry that can be read and written it leaves no connection
    of the machine behind: neither the machine's name nor the name with
    [-root] after it is an entry afterwards, whether or not both were
    there and whatever happened to the files; every other entry is what it
    was. *)
Theorem Remove_func_drops_connections (files : list string)
    (m : MacMachine.t) (w : MacMachine.World) :
  read_err (MacMachine.registry w) = None →
  write_err (MacMachine.registry w) = None →
  let r := MacMachine.Remove_func files m w in
  r.2 = None
  ∧ MacMachine.fs r.1 = MacMachine.fs (MacMachine.remove_files files w)
  ∧ ∀ k, Go.map_get (Machine.ServiceDestinations
                       (Machine.Engine (stored (MacMachine.registry r.1)))) k
         = if bool_decide (k = MacMachine.Name m
                           ∨ k = MacMachine.Name m +:+ "-root")
           then None
           else Go.map_get (Machine.ServiceDestinations
                              (Machine.Engine (stored (MacMachine.registry w))))
                  k.
Proof.
  intros Hr Hw. cbv zeta. unfold MacMachine.Remove_func. cbn [fst snd].
  split; [done|].
  pose proof (remove_files_registry files w) as Hreg.
  destruct (remove_connection_get (MacMachine.Name m)
              (MacMachine.remove_files files w))
    as (Hr1 & Hw1 & Hfs1 & Hget1); [by rewrite Hreg..|].
  destruct (remove_connection_get (MacMachine.Name m +:+ "-root")
              (MacMachine.remove_connection (MacMachine.Name m)
                 (MacMachine.remove_files files w)))
    as (_ & _ & Hfs2 & Hget2); [done..|].
  split; [by rewrite Hfs2, Hfs1|].
  intros k. rewrite Hget2, Hget1, Hreg.
  destruct (decide (k = MacMachine.Name m +:+ "-root")) as [->|Hk2].
  - rewrite bool_decide_eq_true_2; [done|by right].
  - destruct (decide (k = MacMachine.Name m)) as [->|Hk1].
    + rewrite bool_decide_eq_true_2; [done|by left].
    + rewrite bool_decide_eq_false_2; [done|]. by intros [?|?].
Qed.

Section WithEnv.
Context `{MacMachine.Env} `{VMFileOps}.

Lemma string_app_nil_r (a : string) : a +:+ "" = a.
Proof. induction a as [|c a IH]; [done|]. cbn. by rewrite IH. Qed.

Lemma concat_empty_cons (x : string) (l : list string) :
  String.concat "" (x :: l) = x +:+ String.concat "" l.
Proof. destruct l; cbn; [by rewrite string_app_nil_r|done]. Qed.

Lemma removal_message_fold (files : list string) (acc : string) :
  fold_left (fun acc msg => acc +:+ (msg +:+ newline)) files acc
  = acc +:+ String.concat "" ((fun f => f +:+ newline) <$> files).
Proof.
  revert acc. induction files as [|f files IH]; intros acc.
  - cbn. by rewrite string_app_nil_r.
  - cbn [fold_left fmap list_fmap]. rewrite IH, concat_empty_cons.
    by rewrite string_app_assoc.
Qed.

(** What [Remove] does once it is past the state check. *)
Lemma Remove_continue (opts : Machine.RemoveOptions) (m : MacMachine.t) :
  let files := removal_list opts m in
  fold_left (fun acc msg => acc +:+ (msg +:+ newline)) files
    (String (Ascii.ascii_of_nat 10) "The following files will be deleted:"
     +:+ String (Ascii.ascii_of_nat 10) (String (Ascii.ascii_of_nat 10) ""))
  +:+ newline
  = removal_message files.
Proof.
  cbv zeta. rewrite removal_message_fold. unfold removal_message, newline.
  rewrite !string_app_assoc. reflexivity.
Qed.

(** [Remove] with its file list and its message in closed form. *)
Lemma Remove_unfold (name : string) (opts : Machine.RemoveOptions)
    (m : MacMachine.t) (w : MacMachine.World) :
  MacMachine.Remove name opts m w
  = let continue (w : MacMachine.World) :=
      (w, (removal_message (removal_list opts m),
           Some (MacMachine.Remove_func (removal_list opts m) m),
           @None error)) in
    match MacMachine.vfkit_state (MacMachine.VfkitHelper m) w with
    | inr err => (w, ("", None, Some err))
    | inl vmState =>
        if bool_decide (vmState = Machine.Running) then
          if negb (Machine.Force opts) then
            (w, ("", None,
                 Some (Errorf "invalid state: %s is running"
                         [MacMachine.Name m])))
          else
            match MacMachine.vfkit_stop (MacMachine.VfkitHelper m) true true w
            with
            | (w, Some err) => (w, ("", None, Some err))
            | (w, None) => continue w
            end
        else continue w
    end.
Proof.
  pose proof (Remove_continue opts m) as Hc. cbv zeta in Hc.
  unfold MacMachine.Remove. cbv zeta. rewrite <- Hc.
  unfold removal_list, newline.
  destruct (Machine.SaveKeys opts), (Machine.SaveIgnition opts),
    (Machine.SaveImage opts); reflexivity.
Qed.

(** X15.  Whenever [Remove] hands back a function, it reports no error,
    the message lists, one to a line and in order, exactly the paths the
    function will try to delete, and these are: the key and its [.pub]
    unless [SaveKeys], the ignition file unless [SaveIgnition], the image
    unless [SaveImage], and always, last, the configuration file.  A
    machine that was running has then been stopped, which takes [Force];
    otherwise nothing has happened yet. *)
Theorem Remove_hands_back (name : string) (opts : Machine.RemoveOptions)
    (m : MacMachine.t) (w w' : MacMachine.World) (msg : string)
    (f : MacMachine.World → MacMachine.World * option error)
    (err : option error) :
  MacMachine.Remove name opts m w = (w', (msg, Some f, err)) →
  ∃ files,
    err = None
    ∧ msg = removal_message files
    ∧ f = MacMachine.Remove_func files m
    ∧ last files = Some (GetPath (MacMachine.ConfigPath m))
    ∧ (∀ p, p ∈ files ↔
         (Machine.SaveKeys opts = false
          ∧ (p = Machine.IdentityPath (MacMachine.SSHConfig m)
             ∨ p = Machine.IdentityPath (MacMachine.SSHConfig m) +:+ ".pub"))
         ∨ (Machine.SaveIgnition opts = false
            ∧ p = GetPath (Machine.IgnitionFile (MacMachine.ImageConfig m)))
         ∨ (Machine.SaveImage opts = false
            ∧ p = GetPath (Machine.ImagePath (MacMachine.ImageConfig m)))
         ∨ p = GetPath (MacMachine.ConfigPath m))
    ∧ (if bool_decide (MacMachine.State m w = inl Machine.Running)
       then Machine.Force opts = true
            ∧ MacMachine.vfkit_stop (MacMachine.VfkitHelper m) true true w
              = (w', None)
       else w' = w).
Proof.
  intros Hrm. exists (removal_list opts m).
  assert (Hres : err = None ∧ msg = removal_message (removal_list opts m)
                 ∧ f = MacMachine.Remove_func (removal_list opts m) m
                 ∧ (if bool_decide (MacMachine.State m w = inl Machine.Running)
                    then Machine.Force opts = true
                         ∧ MacMachine.vfkit_stop (MacMachine.VfkitHelper m)
                             true true w = (w', None)
                    else w' = w)).
  { revert Hrm. rewrite Remove_unfold. unfold MacMachine.State.
    destruct (MacMachine.vfkit_state _ w) as [st|e]; [|done].
    destruct (decide (st = Machine.Running)) as [->|Hne].
    - rewrite !bool_decide_eq_true_2 by done.
      destruct (Machine.Force opts); [|done]. cbn [negb].
      destruct (MacMachine.vfkit_stop _ true true w) as [w1 [e|]]; [done|].
      by intros [= <- <- <- <-].
    - rewrite !bool_decide_eq_false_2 by congruence.
      by intros [= <- <- <- <-]. }
  destruct Hres as (-> & -> & -> & Hw).
  split; [done|]. split; [done|]. split; [done|].
  split; [|split; [|done]].
  - unfold removal_list. rewrite !app_assoc. apply last_snoc.
  - intros p. unfold removal_list.
    rewrite !elem_of_app, list_elem_of_singleton.
    destruct (Machine.SaveKeys opts), (Machine.SaveIgnition opts),
      (Machine.SaveImage opts);
      rewrite ?elem_of_cons, ?elem_of_nil; intuition congruence.
Qed.

End WithEnv.
End WithOrder.

Lemma starting_machine_witness :
  let starting := Sample.env (inl Machine.Starting) in
  MacMachine.State (H := starting) Sample.box Sample.world
    = inl Machine.Starting
  ∧ MacMachine.Stop (H := starting) "box" Machine.mkStopOptions Sample.box
      Sample.world = (Sample.world, Some ErrWrongState)
  ∧ MacMachine.Set_ (H := starting) "box" Sample.grow_to_40 Sample.box
      Sample.world = (Sample.box, Sample.world, ([], Some ErrWrongState))
  ∧ MacMachine.Start (H := starting) "box" Machine.mkStartOptions Sample.box
      Sample.world = (Sample.box, Sample.world, None).
Proof.
  intros starting.
  destruct (@starting_machine starting Sample.first_key
              Sample.symlink_or_path "box" Sample.box Sample.world eq_refl)
    as (Hstop & Hset & Hstart & _).
  split; [reflexivity|]. split; [apply Hstop|]. split; [apply Hset|].
  rewrite Hstart. reflexivity.
Defined.

Lemma state_query_error_witness :
  let unreachable := Sample.env (inr (ErrNew "connection refused")) in
  MacMachine.State (H := unreachable) Sample.box Sample.world
    = inr (ErrNew "connection refused")
  ∧ MacMachine.Set_ (H := unreachable) "box" Sample.grow_to_40 Sample.box
      Sample.world
    = (Sample.box, Sample.world, ([], Some (ErrNew "connection refused")))
  ∧ MacMachine.Remove (H := unreachable) (H0 := Sample.first_key)
      (H1 := Sample.symlink_or_path) "box" Sample.keep_nothing Sample.box
      Sample.world
    = (Sample.world, ("", None, Some (ErrNew "connection refused"))).
Proof.
  intros unreachable.
  destruct (@state_query_error unreachable Sample.first_key
              Sample.symlink_or_path "box" Sample.box Sample.world
              (ErrNew "connection refused") eq_refl)
    as (_ & _ & Hset & Hremove).
  split; [reflexivity|]. split; [apply Hset|]. apply Hremove.
Defined.

Lemma Set_on_stopped_witness :
  let stopped := Sample.env (inl Machine.Stopped) in
  let opts := Machine.mkSetOptions (Some 4%N) (Some 10%N) None in
  let r := MacMachine.Set_ (H := stopped) "box" opts Sample.box Sample.world in
  MacMachine.State (H := stopped) Sample.box Sample.world
    = inl Machine.Stopped
  ∧ MacMachine.ResourceConfig r.1.1 = Machine.mkResourceConfig 4 20 2048
  ∧ r.2.1 = [Some MacMachine.shrink_error]
  ∧ MacMachine.writeConfig (H := stopped) r.1.1 Sample.world = (r.1.2, r.2.2).
Proof.
  intros stopped opts r.
  destruct (@Set_on_stopped stopped "box" opts Sample.box Sample.world eq_refl)
    as (Hrec & Hlist & Hwrite).
  split; [reflexivity|]. split; [|split; [exact Hlist|exact Hwrite]].
  fold r in Hrec. rewrite Hrec. reflexivity.
Defined.

Lemma Remove_func_drops_connections_witness :
  let r := MacMachine.Remove_func (H := Sample.first_key) [] Sample.box
             Sample.world in
  read_err (MacMachine.registry Sample.world) = None
  ∧ write_err (MacMachine.registry Sample.world) = None
  ∧ Go.map_get (Machine.ServiceDestinations
                  (Machine.Engine (stored (MacMachine.registry r.1)))) "box"
    = None
  ∧ Go.map_get (Machine.ServiceDestinations
                  (Machine.Engine (stored (MacMachine.registry r.1))))
      "box-root" = None
  ∧ is_Some (Go.map_get (Machine.ServiceDestinations
                           (Machine.Engine (stored (MacMachine.registry r.1))))
               "remote").
Proof.
  intros r.
  destruct (Remove_func_drops_connections (H := Sample.first_key) []
              Sample.box Sample.world eq_refl eq_refl) as (_ & _ & Hget).
  fold r in Hget.
  split; [reflexivity|]. split; [reflexivity|].
  split; [rewrite Hget; reflexivity|]. split; [rewrite Hget; reflexivity|].
  rewrite Hget. vm_compute. eauto.
Defined.

Lemma Remove_hands_back_witness :
  let stopped := Sample.env (inl Machine.Stopped) in
  let keep_image := Machine.mkRemoveOptions false false true false in
  let files := ["/home/u/.ssh/box"; "/home/u/.ssh/box.pub";
                "/conf/applehv/box.ign"; "/conf/applehv/box.json"] in
  MacMachine.Remove (H := stopped) (H0 := Sample.first_key)
    (H1 := Sample.symlink_or_path) "box" keep_image Sample.box Sample.world
  = (Sample.world,
     (removal_message files,
      Some (MacMachine.Remove_func (H := Sample.first_key) files Sample.box),
      None))
  ∧ ∃ listed,
      removal_message files = removal_message listed
      ∧ last listed = Some "/conf/applehv/box.json"
      ∧ "/data/applehv/box.raw" ∉ listed.
Proof.
  intros stopped keep_image files.
  assert (Hr : MacMachine.Remove (H := stopped) (H0 := Sample.first_key)
                 (H1 := Sample.symlink_or_path) "box" keep_image Sample.box
                 Sample.world
               = (Sample.world,
                  (removal_message files,
                   Some (MacMachine.Remove_func (H := Sample.first_key) files
                           Sample.box),
                   None))) by reflexivity.
  split; [exact Hr|].
  destruct (@Remove_hands_back Sample.first_key stopped Sample.symlink_or_path
              _ _ _ _ _ _ _ _ Hr)
    as (listed & _ & Hmsg & _ & Hlast & Hin & _).
  exists listed. split; [exact Hmsg|]. split; [exact Hlast|].
  intros Hraw. apply Hin in Hraw.
  destruct Hraw as [[_ [Hp|Hp]]|[[_ Hp]|[[Hsave _]|Hp]]]; discriminate.
Defined.

End MacMachineLaws.

(** ** Loading and creating applehv machines *)

Module AppleHVConfigLaws.
Import AppleHV AppleHVConfig.

Section WithHost.
Context `{Host}.

Lemma name_given (name : string) :
  name ≠ "" → (String.length name <? 1)%nat = false.
Proof. by destruct name. Qed.

(** X16.  Loading a machine by a name that has no configuration file
    gives an error that wraps [ErrNoSuchVM] and quotes the path looked
    at, the name with [.json] after it in the configuration directory;
    only a missing file does: a file that is there and cannot be read
    gives the error of the read, which is not [ErrNoSuchVM]. *)
Theorem LoadVMByName_no_such_vm (name dir : string) (w : MacMachine.World) :
  GetConfDir = inl dir → name ≠ "" →
  let path := Join dir (name +:+ ".json") in
  (OS.files (MacMachine.fs w) !! path = None →
   LoadVMByName name w = inr (Wrap "%q: %w" path ErrNoSuchVM))
  ∧ (is_Some (OS.files (MacMachine.fs w) !! path) → unreadable path = true →
     ∃ err, LoadVMByName name w = inr err ∧ Is err ErrNoSuchVM = false).
Proof.
  intros Hdir Hname path. subst path.
  unfold LoadVMByName, loadFromFile, jsonConfigPath, loadMacMachineFromJSON,
    getVMConfigPath, ReadFile.
  cbn [with_Name MacMachine.Name]. rewrite (name_given _ Hname), Hdir.
  split.
  - by intros ->.
  - intros [data ->] ->. cbn. eauto.
Qed.

Context `{MacMachine.Env}.


(** X18.  [NewMachine] with an empty name fails, but only after it has
    written a configuration file: where the directory and the two machine
    files are had and the write goes through, the call returns the error
    of a machine with no name, and the file is there, holding the record
    of a nameless machine. *)
Theorem NewMachine_nameless_leaves_file (opts : InitOptions) (dir b : string)
    (configPath ignitionPath : VMFile) (w : MacMachine.World) :
  init_Name opts = "" →
  GetConfDir = inl dir →
  NewMachineFile (getVMConfigPath dir "") None = inl configPath →
  NewMachineFile (Join dir "" +:+ ".ign") None = inl ignitionPath →
  MacMachine.MarshalIndent (fresh opts configPath ignitionPath) = inl b →
  Path configPath ≠ "" →
  Path configPath ∉ OS.denied (MacMachine.fs w) →
  OS.torn (MacMachine.fs w) !! Path configPath = None →
  NewMachine opts w
  = (MacMachine.mkWorld
       (OS.mkFS (<[ Path configPath := b ]> (OS.files (MacMachine.fs w)))
          (OS.denied (MacMachine.fs w)) (OS.torn (MacMachine.fs w)))
       (MacMachine.registry w) (MacMachine.logged w),
     inr (Bare (ErrNew "encountered machine with no name"))).
Proof.
  intros Hname Hdir Hcfg Hign Hb Hpath Hfree Hroom.
  unfold NewMachine. rewrite Hdir, Hname.
  cbn [with_Name with_ConfigPath MacMachine.Name]. rewrite Hcfg, Hign.
  unfold fresh in Hb. rewrite Hname in Hb.
  unfold MacMachine.writeConfig, OS.WriteFile. rewrite Hb.
  cbn [MacMachine.with_ResourceConfig with_Created with_IgnitionFile
         with_ConfigPath with_Name MacMachine.ConfigPath].
  destruct (Path configPath) as [|c p] eqn:Hp; [done|]. cbn [Go.is_empty].
  rewrite bool_decide_eq_false_2 by done. by rewrite Hroom.
Qed.


End WithHost.

Lemma LoadVMByName_no_such_vm_witness :
  GetConfDir (Host := SampleHost.host) = inl "/conf/applehv"
  ∧ "ghost" ≠ ""
  ∧ LoadVMByName (H := SampleHost.host) "ghost" Sample.world
    = inr (Wrap "%q: %w" "/conf/applehv/ghost.json" ErrNoSuchVM)
  ∧ Is (Wrap "%q: %w" "/conf/applehv/ghost.json" ErrNoSuchVM) ErrNoSuchVM
    = true.
Proof.
  split; [reflexivity|]. split; [discriminate|]. split; [|reflexivity].
  apply (proj1 (@LoadVMByName_no_such_vm SampleHost.host "ghost"
                  "/conf/applehv" Sample.world eq_refl
                  ltac:(discriminate))).
  vm_compute. reflexivity.
Defined.


Lemma NewMachine_nameless_leaves_file_witness :
  let stopped := Sample.env (inl Machine.Stopped) in
  let r := NewMachine (H := stopped) (H0 := SampleHost.host)
             SampleHost.init_nameless SampleHost.empty_world in
  r.2 = inr (Bare (ErrNew "encountered machine with no name"))
  ∧ OS.files (MacMachine.fs r.1) !! "/conf/applehv/.json"
    = Some " cpus=2 disk=20 memory=2048".
Proof.
  intros stopped r. unfold r.
  rewrite (@NewMachine_nameless_leaves_file SampleHost.host stopped
             SampleHost.init_nameless "/conf/applehv"
             " cpus=2 disk=20 memory=2048"
             (mkVMFile "/conf/applehv/.json" None)
             (mkVMFile "/conf/applehv/.ign" None)
             SampleHost.empty_world eq_refl eq_refl eq_refl eq_refl eq_refl
             ltac:(discriminate) ltac:(apply not_elem_of_empty) eq_refl).
  split; [reflexivity|]. vm_compute. reflexivity.
Defined.


End AppleHVConfigLaws.

(** ** The qemu command line as flags and values *)

Module QemuLaws.
Import Qemu Fragment QemuArch.

Lemma flat_app (a b : list (string * string)) : flat (a ++ b) = flat a ++ flat b.
Proof. unfold flat. by rewrite fmap_app, concat_app. Qed.

Lemma flat_fragments {A} (flag : string) (value : A → string)
    (fragment : A → list string) (l : list A) :
  (∀ x, fragment x = [flag; value x]) →
  concat (fragment <$> l) = flat ((fun x => (flag, value x)) <$> l).
Proof.
  intros Hfr. induction l as [|x l IH]; [done|].
  cbn. by rewrite Hfr, IH.
Qed.

Section WithFiles.
Context `{VMFileOps}.

Lemma chardev_pair (c : CharDev.t) :
  ∃ v, CharDev.ToCmdline c = ["-chardev"; v].
Proof. eexists. reflexivity. Qed.

Lemma virtserialport_pair (v : VirtSerialPort.t) :
  ∃ vars, VirtSerialPort.ToCmdline v = ["-device"; vars].
Proof. eexists. reflexivity. Qed.

(** X20.  The command line of a qemu machine is a list of flags, each
    followed by one value: it has as many flags as there are firmware
    devices and mounts, fourteen more, and [-bios] when a BIOS is set;
    every flag is one of fifteen, and an empty CPU, accelerator, machine
    or pid file is still passed, as an empty value. *)
Theorem ToCmdline_flags_and_values (q : QemuCmd.t) :
  ∃ pairs,
    QemuCmd.ToCmdline q = flat pairs
    ∧ Forall (fun p => p.1 ∈ flags) pairs
    ∧ length pairs
      = (14 + length (QemuCmd.FirmwareConfigs q) + length (QemuCmd.Mounts q)
         + (if Go.is_empty (QemuCmd.Bios q) then 0 else 1))%nat
    ∧ ("-accel", QemuCmd.Accelerator q) ∈ pairs
    ∧ ("-cpu", QemuCmd.CPU q) ∈ pairs
    ∧ ("-M", QemuCmd.Machine q) ∈ pairs
    ∧ ("-pidfile", GetPath (SerialPort.PidFile (QemuCmd.SerialPort q)))
      ∈ pairs.
Proof.
  destruct (chardev_pair (SerialPort.CharDev (QemuCmd.SerialPort q)))
    as [cv Hcv].
  destruct (virtserialport_pair
              (SerialPort.VirtSerialPort (QemuCmd.SerialPort q))) as [sv Hsv].
  exists
    ([("-m", Go.Itoa (QemuCmd.Memory q)); ("-smp", Go.Itoa (QemuCmd.CPUs q))]
     ++ ((fun f => ("-fw_cfg", join (firmware_parts f)))
           <$> QemuCmd.FirmwareConfigs q)
     ++ [("-qmp", join (monitor_parts (QemuCmd.QmpMonitor q)));
         ("-netdev", Socket.ToCmdline (Network.Socket (QemuCmd.Network q)));
         ("-device",
          VirtioNet.ToCmdline (Network.VirtioNet (QemuCmd.Network q)));
         ("-device", "virtio-serial"); ("-chardev", cv); ("-device", sv);
         ("-pidfile", GetPath (SerialPort.PidFile (QemuCmd.SerialPort q)))]
     ++ ((fun v => ("-virtfs", join (virtfs_parts v))) <$> QemuCmd.Mounts q)
     ++ [("-display", if QemuCmd.Display q then "true" else "none");
         ("-accel", QemuCmd.Accelerator q); ("-cpu", QemuCmd.CPU q);
         ("-drive", "if=virtio,file=" +:+ QemuCmd.BootableImage q)]
     ++ (if Go.is_empty (QemuCmd.Bios q) then []
         else [("-bios", QemuCmd.Bios q)])
     ++ [("-M", QemuCmd.Machine q)]).
  split; [|split; [|split]].
  - unfold QemuCmd.ToCmdline. cbv zeta.
    rewrite !fold_left_append.
    rewrite (flat_fragments "-fw_cfg" (fun f => join (firmware_parts f))
               FirmwareConfigDevice.ToCmdline)
      by apply QemuFacts.firmware_fragment.
    rewrite (flat_fragments "-virtfs" (fun v => join (virtfs_parts v))
               Virtfs.ToCmdline)
      by apply QemuFacts.virtfs_fragment.
    rewrite QemuFacts.monitor_fragment.
    unfold SerialPort.ToCmdline, Network.ToCmdline. cbv zeta.
    rewrite Hcv, Hsv. rewrite !flat_app.
    destruct (QemuCmd.Display q), (Go.is_empty (QemuCmd.Bios q)); cbn [negb];
      rewrite <- ?app_assoc; reflexivity.
  - rewrite !Forall_app. unfold flags.
    repeat split;
      try (apply Forall_fmap, Forall_true; intros x; cbn;
           rewrite !elem_of_cons; tauto);
      try destruct (Go.is_empty (QemuCmd.Bios q));
      repeat constructor; cbn; rewrite !elem_of_cons; tauto.
  - rewrite !length_app, !length_fmap.
    destruct (Go.is_empty (QemuCmd.Bios q)); cbn [length]; lia.
  - rewrite !elem_of_app, !elem_of_cons. tauto.
Qed.

(** X21.  The two device descriptors with a kind of their own,
    [VirtioNet] and [VirtSerialPort], serialise as the kind followed by
    the fields that are not empty, a comma between any two: for the serial
    port the character device before the name. *)
Theorem device_fragments (n : VirtioNet.t) (v : VirtSerialPort.t) :
  VirtioNet.ToCmdline n
  = join (["virtio-net-pci"]
          ++ field "netdev=" (VirtioNet.NetDevice n)
          ++ field "mac=" (VirtioNet.MacAddress n))
  ∧ VirtSerialPort.ToCmdline v
    = ["-device";
       join (["virtserialport"]
             ++ field "chardev=" (VirtSerialPort.CharDev v)
             ++ field "name=" (VirtSerialPort.Name v))].
Proof.
  unfold VirtioNet.ToCmdline, VirtSerialPort.ToCmdline, join, field.
  split.
  - destruct (VirtioNet.NetDevice n), (VirtioNet.MacAddress n);
      cbn [Go.is_empty negb app String.concat]; try reflexivity;
      by rewrite ?string_app_assoc.
  - destruct (VirtSerialPort.CharDev v), (VirtSerialPort.Name v);
      cbn [Go.is_empty negb app String.concat]; try reflexivity;
      by rewrite ?string_app_assoc.
Qed.

Context `{Dirs}.

(** X22.  The options of an architecture reach the command line in its
    end only: what comes before [-accel] is what it was; on arm64 the
    accelerator, the CPU and the machine are fixed and the BIOS is the
    UEFI file found, on amd64 the BIOS and the machine are what they
    were.  The UEFI file is looked for in two directories, the first that
    is there wins, and without either the bare file name is passed. *)
Theorem addArchOptions_on_command_line (q : QemuCmd.t) :
  ∃ front,
    QemuCmd.ToCmdline q
    = front ++ arch_tail (QemuCmd.Accelerator q) (QemuCmd.CPU q)
                 (QemuCmd.BootableImage q) (QemuCmd.Bios q)
                 (QemuCmd.Machine q)
    ∧ QemuCmd.ToCmdline (Arm64.addArchOptions q)
      = front ++ arch_tail "kvm" "host" (QemuCmd.BootableImage q)
                   (getQemuUefiFile "QEMU_EFI.fd") "virt,gic-version=max"
    ∧ QemuCmd.ToCmdline (Amd64.addArchOptions q)
      = front ++ arch_tail "kvm" "host" (QemuCmd.BootableImage q)
                   (QemuCmd.Bios q) (QemuCmd.Machine q)
    ∧ getQemuUefiFile "QEMU_EFI.fd"
      = (if stat_ok "/usr/share/qemu-efi-aarch64"
         then Join "/usr/share/qemu-efi-aarch64" "QEMU_EFI.fd"
         else if stat_ok "/usr/share/edk2/aarch64"
              then Join "/usr/share/edk2/aarch64" "QEMU_EFI.fd"
              else "QEMU_EFI.fd").
Proof.
  exists
    (["-m"; Go.Itoa (QemuCmd.Memory q); "-smp"; Go.Itoa (QemuCmd.CPUs q)]
     ++ concat (FirmwareConfigDevice.ToCmdline <$> QemuCmd.FirmwareConfigs q)
     ++ QmpMonitor.ToCmdline (QemuCmd.QmpMonitor q)
     ++ Network.ToCmdline (QemuCmd.Network q)
     ++ SerialPort.ToCmdline (QemuCmd.SerialPort q)
     ++ concat (Virtfs.ToCmdline <$> QemuCmd.Mounts q)
     ++ ["-display"; if QemuCmd.Display q then "true" else "none"]).
  assert (Hall : ∀ q' : QemuCmd.t,
    QemuCmd.ToCmdline q'
    = (["-m"; Go.Itoa (QemuCmd.Memory q'); "-smp"; Go.Itoa (QemuCmd.CPUs q')]
       ++ concat (FirmwareConfigDevice.ToCmdline <$> QemuCmd.FirmwareConfigs q')
       ++ QmpMonitor.ToCmdline (QemuCmd.QmpMonitor q')
       ++ Network.ToCmdline (QemuCmd.Network q')
       ++ SerialPort.ToCmdline (QemuCmd.SerialPort q')
       ++ concat (Virtfs.ToCmdline <$> QemuCmd.Mounts q')
       ++ ["-display"; if QemuCmd.Display q' then "true" else "none"])
      ++ arch_tail (QemuCmd.Accelerator q') (QemuCmd.CPU q')
           (QemuCmd.BootableImage q') (QemuCmd.Bios q') (QemuCmd.Machine q')).
  { intros q'. unfold QemuCmd.ToCmdline, arch_tail. cbv zeta.
    rewrite !fold_left_append.
    destruct (QemuCmd.Display q'), (Go.is_empty (QemuCmd.Bios q')); cbn [negb];
      rewrite <- ?app_assoc; reflexivity. }
  split; [apply Hall|]. split; [apply (Hall (Arm64.addArchOptions q))|].
  split; [apply (Hall (Amd64.addArchOptions q))|]. reflexivity.
Qed.

End WithFiles.
End QemuLaws.

(** ** Volumes *)

Module VolumeLaws.
Import Volume.

Lemma cut_Some (sep : ascii) (s a b : string) :
  cut sep s = Some (a, b) →
  s = a +:+ String sep b ∧ has sep a = false.
Proof.
  revert a. induction s as [|c s IH]; intros a; cbn [cut]; [done|].
  destruct (Ascii.eqb_spec c sep) as [->|Hne].
  - by intros [= <- <-].
  - destruct (cut sep s) as [[a' b']|]; [|done].
    intros [= <- <-]. destruct (IH a' eq_refl) as [-> Ha].
    split; [done|]. cbn [has]. rewrite Ha.
    by destruct (Ascii.eqb_spec c sep).
Qed.

Lemma cut_None (sep : ascii) (s : string) :
  cut sep s = None → has sep s = false.
Proof.
  induction s as [|c s IH]; cbn [cut has]; [done|].
  destruct (Ascii.eqb c sep); [done|].
  destruct (cut sep s) as [[a b]|]; [done|]. intros _. by apply IH.
Qed.

Lemma concat_cons (sep x : string) (l : list string) :
  l ≠ [] → String.concat sep (x :: l) = x +:+ sep +:+ String.concat sep l.
Proof. by destruct l. Qed.

(** What [SplitN] gives for [n >= 1]: the pieces joined give the string
    back, there are between one and [n] of them, and only the [n]th can
    hold a separator. *)
Lemma SplitN_spec (sep : ascii) (n : nat) (s : string) :
  let parts := SplitN s sep (S n) in
  String.concat (String sep "") parts = s
  ∧ (1 ≤ length parts ≤ S n)%nat
  ∧ (∀ i p, parts !! i = Some p → (i < n)%nat → has sep p = false).
Proof.
  revert s. induction n as [|n IH]; intros s; cbv zeta.
  - cbn. split; [done|]. split; [lia|]. intros i p _ Hi. lia.
  - change (SplitN s sep (S (S n)))
      with (match cut sep s with
            | None => [s]
            | Some (a, b) => a :: SplitN b sep (S n)
            end).
    destruct (cut sep s) as [[a b]|] eqn:Hcut.
    + destruct (cut_Some _ _ _ _ Hcut) as [-> Ha].
      destruct (IH b) as (Hjoin & Hlen & Hparts).
      split; [|split].
      * rewrite concat_cons by (intros Hnil; rewrite Hnil in Hlen; cbn in Hlen; lia).
        by rewrite Hjoin.
      * cbn [length]. lia.
      * intros [|i] p; cbn; [by intros [= <-]|].
        intros Hp Hi. apply (Hparts i p Hp). lia.
    + split; [done|]. split; [cbn; lia|].
      intros [|i] p; cbn; [|done]. intros [= <-] _. by apply cut_None.
Qed.

(** X23.  A volume is split at its first two colons and no further:
    one to three pieces come back, joined by colons they give the volume
    back, the first two hold no colon, and a third holds all the rest,
    colons included. *)
Theorem pathsFromVolume_rejoins (volume : string) :
  let paths := pathsFromVolume volume in
  String.concat ":" paths = volume
  ∧ (1 ≤ length paths ≤ 3)%nat
  ∧ (∀ i p, paths !! i = Some p → (i < 2)%nat → has ":"%char p = false)
  ∧ (has ":"%char volume = false → paths = [volume]).
Proof.
  cbv zeta. unfold pathsFromVolume.
  destruct (SplitN_spec ":"%char 2 volume) as (Hjoin & Hlen & Hparts).
  split; [done|]. split; [done|]. split; [done|].
  intros Hnone.
  change (SplitN volume ":"%char 3)
    with (match cut ":"%char volume with
          | None => [volume]
          | Some (a, b) => a :: SplitN b ":"%char 2
          end).
  destruct (cut ":"%char volume) as [[a b]|] eqn:Hcut; [|done].
  destruct (cut_Some _ _ _ _ Hcut) as [-> _]. exfalso. revert Hnone. clear.
  induction a as [|c a IH]; cbn [String.append has].
  - by rewrite Ascii.eqb_refl.
  - destruct (Ascii.eqb c ":"%char); [done|]. exact IH.
Qed.

(** X24.  The target of a volume is always there and never holds a
    colon: it is the volume itself when that holds none, and else what
    stands between the first colon and the second, or the end. *)
Theorem extractTargetPath_of_volume (volume : string) :
  ∃ target,
    extractTargetPath (pathsFromVolume volume) = Some target
    ∧ has ":"%char target = false
    ∧ (has ":"%char volume = false → target = volume)
    ∧ (has ":"%char volume = true →
       ∃ source rest,
         has ":"%char source = false
         ∧ (volume = source +:+ ":" +:+ target
            ∨ volume = source +:+ ":" +:+ target +:+ ":" +:+ rest)).
Proof.
  unfold pathsFromVolume.
  change (SplitN volume ":"%char 3)
    with (match cut ":"%char volume with
          | None => [volume]
          | Some (a, b) =>
              a :: match cut ":"%char b with
                   | None => [b]
                   | Some (a', b') => a' :: [b']
                   end
          end).
  destruct (cut ":"%char volume) as [[a b]|] eqn:Hcut.
  - destruct (cut_Some _ _ _ _ Hcut) as [-> Ha].
    assert (Hhas : has ":"%char (a +:+ String ":"%char b) = true).
    { clear. induction a as [|c a IH]; cbn [String.append has].
      - by rewrite Ascii.eqb_refl.
      - rewrite IH. apply orb_true_r. }
    destruct (cut ":"%char b) as [[a' b']|] eqn:Hcut'.
    + destruct (cut_Some _ _ _ _ Hcut') as [-> Ha'].
      exists a'. split; [done|]. split; [done|].
      split; [by rewrite Hhas|]. intros _. exists a, b'. split; [done|].
      right. reflexivity.
    + exists b. split; [done|]. split; [by apply cut_None|].
      split; [by rewrite Hhas|]. intros _. exists a, "". split; [done|].
      left. reflexivity.
  - exists volume. split; [done|]. pose proof (cut_None _ _ Hcut) as Hnone.
    split; [done|]. split; [done|]. by rewrite Hnone.
Qed.

End VolumeLaws.

(** ** Waiting for a named pipe *)

Module WindowsLaws.
Import Windows.

Lemma wait_loop_nil (stat check : nat → option error) (n i : nat)
    (err : option error) :
  wait_loop stat check i n err = None
  ↔ (n = 0%nat ∧ err = None)
    ∨ ∃ k, (k < n)%nat ∧ stat (i + k)%nat = None
           ∧ ∀ j, (j < k)%nat →
                  stat (i + j)%nat ≠ None ∧ check (i + j)%nat = None.
Proof.
  revert i err. induction n as [|n IH]; intros i err; cbn [wait_loop].
  - split; [by left|]. intros [[_ ?]|(k & Hk & _)]; [done|lia].
  - destruct (stat i) as [e|] eqn:Hstat.
    + destruct (check i) as [fail|] eqn:Hcheck.
      * split; [done|]. intros [[? _]|(k & Hk & Hfound & Hbefore)]; [done|].
        destruct k as [|k].
        -- rewrite Nat.add_0_r in Hfound. congruence.
        -- destruct (Hbefore 0%nat) as [_ Hc]; [lia|].
           rewrite Nat.add_0_r in Hc. congruence.
      * rewrite IH. split.
        -- intros [[_ ?]|(k & Hk & Hfound & Hbefore)]; [done|].
           right. exists (S k). split; [lia|].
           split; [by rewrite Nat.add_succ_r|].
           intros [|j] Hj.
           ++ rewrite Nat.add_0_r. by rewrite Hstat, Hcheck.
           ++ rewrite Nat.add_succ_r. apply Hbefore. lia.
        -- intros [[? _]|(k & Hk & Hfound & Hbefore)]; [done|].
           right. destruct k as [|k].
           ++ rewrite Nat.add_0_r in Hfound. congruence.
           ++ exists k. split; [lia|].
              split; [by rewrite Nat.add_succ_r in Hfound|].
              intros j Hj. specialize (Hbefore (S j)).
              rewrite Nat.add_succ_r in Hbefore. apply Hbefore. lia.
    + split; [|done]. intros _. right. exists 0%nat.
      split; [lia|]. split; [by rewrite Nat.add_0_r|]. intros j Hj. lia.
Qed.

Lemma wait_loop_timeout (stat check : nat → option error) (n i : nat)
    (err : option error) :
  (∀ j, (j < S n)%nat → stat (i + j)%nat ≠ None ∧ check (i + j)%nat = None) →
  wait_loop stat check i (S n) err = stat (i + n)%nat.
Proof.
  revert i err. induction n as [|n IH]; intros i err Hall.
  - destruct (Hall 0%nat) as [Hs Hc]; [lia|]. rewrite Nat.add_0_r in *.
    cbn. destruct (stat i); [|done]. by rewrite Hc.
  - destruct (Hall 0%nat) as [Hs Hc]; [lia|]. rewrite Nat.add_0_r in *.
    cbn [wait_loop]. destruct (stat i) as [e|] eqn:Hstat; [|done]. rewrite Hc.
    change (wait_loop stat check (S i) (S n) (Some e) = stat (i + S n)%nat).
    rewrite IH; [by rewrite Nat.add_succ_r|].
    intros j Hj. specialize (Hall (S j)). rewrite Nat.add_succ_r in Hall.
    apply Hall. lia.
Qed.

(** X25.  [WaitPipeExists] reports no error when the pipe was seen in
    one of its [retries] turns and no failure check before that turn
    failed, and also, without looking once, when [retries] is zero or less;
    in no other case.  When every turn finds no pipe and no check fails,
    the error of the last look comes back. *)
Theorem WaitPipeExists_nil_iff (Stat : string → nat → option error)
    (pipeName : string) (retries : Z) (checkFailure : nat → option error) :
  (WaitPipeExists Stat pipeName retries checkFailure = None
   ↔ retries ≤ 0
     ∨ ∃ k, (Z.of_nat k < retries)
            ∧ Stat (pipe_path pipeName) k = None
            ∧ ∀ j, (j < k)%nat →
                   Stat (pipe_path pipeName) j ≠ None
                   ∧ checkFailure j = None)
  ∧ (0 < retries →
     (∀ j, Z.of_nat j < retries →
           Stat (pipe_path pipeName) j ≠ None ∧ checkFailure j = None) →
     WaitPipeExists Stat pipeName retries checkFailure
     = Stat (pipe_path pipeName) (Z.to_nat (retries - 1))).
Proof.
  unfold WaitPipeExists. split.
  - rewrite wait_loop_nil. cbn [Nat.add]. split.
    + intros [[Hn _]|(k & Hk & Hrest)]; [left; lia|].
      right. exists k. split; [lia|done].
    + intros [Hn|(k & Hk & Hrest)].
      * left. split; [lia|done].
      * right. exists k. split; [lia|done].
  - intros Hpos Hall.
    replace (Z.to_nat retries) with (S (Z.to_nat (retries - 1))) by lia.
    rewrite wait_loop_timeout; [done|].
    intros j Hj. cbn [Nat.add]. apply Hall. lia.
Qed.

End WindowsLaws.

(** ** Errors of a clean-up *)

Module HyperVLaws.
Import HyperV.

(** X26.  Threading errors through [handlePrevError]: what comes back
    at the end is the last error that happened, not the first, and every
    error but the first has been logged; so of two or more errors the
    first is neither returned nor logged. *)
Theorem handlePrevError_keeps_last (steps : list (option error)) :
  thread_errors steps
  = (last (omap id steps), Some <$> tail (omap id steps)).
Proof.
  unfold thread_errors.
  change (@None error, @nil (option error))
    with (last (@nil error), Some <$> tail (@nil error)).
  change (omap id steps) with ([] ++ omap id steps).
  generalize (@nil error) as seen. intros seen.
  revert seen. induction steps as [|[err|] steps IH]; intros seen.
  - cbn. by rewrite app_nil_r.
  - change (omap id (Some err :: steps)) with (err :: omap id steps).
    cbn [fold_left]. unfold handlePrevError.
    replace (seen ++ err :: omap id steps)
      with ((seen ++ [err]) ++ omap id steps) by (by rewrite <- app_assoc).
    rewrite <- IH. f_equal. rewrite last_snoc. f_equal.
    destruct seen as [|e seen]; [done|].
    rewrite bool_decide_eq_true_2.
    + cbn [tail app]. by rewrite fmap_app.
    + destruct (last_is_Some (e :: seen)) as [_ Hl].
      destruct Hl as [x Hx]; [done|]. by rewrite Hx.
  - change (omap id (None :: steps)) with (omap id steps).
    cbn [fold_left]. apply IH.
Qed.

End HyperVLaws.
